(** * Fake-news detector service (application.py)

    A shallow embedding of the Flask service: the resolution of the two
    artifact paths, the load-once coordinator [_load_artifacts_once], the
    inference wrapper [_predict_text] and the four HTTP handlers.

    Conventions of the embedding.
    - Module-level names of application.py are the fields of [state]; a
      Python function that reads or writes them is a function
      [state -> result A * state] (monad [M]).  The state survives a raised
      exception, as it does in Python.
    - A Python [str] is a Rocq [string] whose characters are code points
      below 256.
    - The file system is an argument of every operation that touches it, so
      that it may differ from one call to the next (files can appear later).
      A file is described by what [open] and [pickle.load] do on it.
    - [io_log] records, oldest first, every call of [open] and of
      [pickle.load]; it is the only instrumentation added to the program.
    - Calls of [logger] are not represented.
    - The methods of a deserialized object are functions: calling one twice
      on the same argument gives the same outcome. *)

From Stdlib Require Import ZArith.
From stdpp Require Import base option list gmap strings pretty.

Local Open Scope string_scope.
Local Open Scope list_scope.
#[local] Set Warnings "-register-all".

(** ** Exceptions and results *)

Inductive exn_class :=
| FileNotFoundError | PermissionError | IsADirectoryError
| UnpicklingError | EOFError
| AttributeError | IndexError | TypeError | ValueError
| KeyboardInterrupt | SystemExit.

(** [isinstance(e, Exception)]: everything but the two classes that derive
    from [BaseException] directly. *)
Definition is_Exception (c : exn_class) : bool :=
  match c with
  | KeyboardInterrupt | SystemExit => false
  | _ => true
  end.

(** [isinstance(e, FileNotFoundError)] *)
Definition is_FileNotFoundError (c : exn_class) : bool :=
  match c with
  | FileNotFoundError => true
  | _ => false
  end.

Record exn := Exn { exn_cls : exn_class; exn_detail : string }.

Inductive result (A : Type) :=
| Ok (a : A)
| Raise (e : exn).
Arguments Ok {A} a.
Arguments Raise {A} e.

Definition is_ok {A} (r : result A) : bool :=
  match r with Ok _ => true | Raise _ => false end.

(** ** Python values that cross the HTTP surface or come out of a classifier *)

Inductive value :=
| VNone
| VBool (b : bool)
| VInt (n : Z)
| VStr (s : string)
| VList (l : list value)
| VDict (d : list (string * value)).

(** A value returned in [pred[0]]: a native Python value, or a numpy scalar
    (the only values here with an [item] attribute), whose [.item()] is the
    native value it carries. *)
Inductive label_value :=
| Native (v : value)
| NumpyScalar (item : value).

(** Truth value of an object, as tested by [x or y]. *)
Definition truthy (v : value) : bool :=
  match v with
  | VNone => false
  | VBool b => b
  | VInt n => negb (n =? 0)%Z
  | VStr s => negb (String.eqb s "")
  | VList l => match l with [] => false | _ => true end
  | VDict d => match d with [] => false | _ => true end
  end.

(** [d.get(k)] on a dict: the binding of [k], if any. *)
Fixpoint dict_get (d : list (string * value)) (k : string) : option value :=
  match d with
  | [] => None
  | (k', v) :: d' => if String.eqb k' k then Some v else dict_get d' k
  end.

(** ** [str.strip]: whitespace is what [str.isspace] accepts below 256 *)

Definition is_space (c : Ascii.ascii) : bool :=
  let n := Ascii.N_of_ascii c in
  ((9 <=? n) && (n <=? 13) || (28 <=? n) && (n <=? 32)
   || (n =? 133) || (n =? 160))%N.

Fixpoint lstrip (s : string) : string :=
  match s with
  | EmptyString => EmptyString
  | String c s' => if is_space c then lstrip s' else s
  end.

Fixpoint rstrip (s : string) : string :=
  match s with
  | EmptyString => EmptyString
  | String c s' =>
      match rstrip s' with
      | EmptyString => if is_space c then EmptyString else String c EmptyString
      | r => String c r
      end
  end.

Definition strip (s : string) : string := rstrip (lstrip s).

(** Every character of [s] is whitespace. *)
Fixpoint all_space (s : string) : bool :=
  match s with
  | EmptyString => true
  | String c s' => is_space c && all_space s'
  end.

(** The first character of [s] exists and is not whitespace. *)
Definition head_nonspace (s : string) : Prop :=
  match s with
  | String c _ => is_space c = false
  | EmptyString => False
  end.

(** ** POSIX [os.path.join] of two components *)

Definition slash : Ascii.ascii := Ascii.ascii_of_nat 47.

Definition starts_with_slash (s : string) : bool :=
  match s with
  | String c _ => Ascii.eqb c slash
  | EmptyString => false
  end.

Fixpoint ends_with_slash (s : string) : bool :=
  match s with
  | EmptyString => false
  | String c EmptyString => Ascii.eqb c slash
  | String _ s' => ends_with_slash s'
  end.

Definition os_path_join (a b : string) : string :=
  if starts_with_slash b then b
  else if String.eqb a "" || ends_with_slash a then a +:+ b
  else a +:+ "/" +:+ b.

(** ** HTTP requests and responses *)

(** What the handlers read of a request: [request.get_json(silent=True)]
    ([None] when the body is not JSON, else the parsed value) and
    [request.form]. *)
Record request := Request {
  get_json_silent : option value;
  form : gmap string string
}.

(** The context [DEMO_HTML] is rendered with. *)
Record demo_page := DemoPage {
  page_model_loaded : bool;
  page_model_path : string;
  page_prediction : option string;
  page_error : option string
}.

Inductive body :=
| Json (v : value)          (* jsonify(...) *)
| Html (p : demo_page).     (* render_template_string(DEMO_HTML, ...) *)

Record response := Response { resp_body : body; status : nat }.

(** The response is a JSON object with key [k]. *)
Definition json_has_key (r : response) (k : string) : Prop :=
  ∃ d v, resp_body r = Json (VDict d) ∧ dict_get d k = Some v.

(** ** The script of the demo page

    The [submit] handler in [DEMO_HTML]: it posts [{message: inputText}] to
    /predict as JSON, parses the answer as JSON and writes one line in the
    page.  What is written is recorded by the branch taken. *)

(** JavaScript's truth value of a parsed JSON value. *)
Definition js_truthy (v : value) : bool :=
  match v with
  | VNone => false
  | VBool b => b
  | VInt n => negb (n =? 0)%Z
  | VStr s => negb (String.eqb s "")
  | VList _ | VDict _ => true
  end.

(** [data.k] for a key [k] that names no built-in property ([error],
    [label]): a [TypeError] on [null], [undefined] on what is not an object
    or lacks the key. *)
Inductive js_prop :=
| JsTypeError
| JsUndefined
| JsValue (v : value).

Definition js_get (data : value) (k : string) : js_prop :=
  match data with
  | VNone => JsTypeError
  | VDict d =>
      match dict_get d k with
      | Some v => JsValue v
      | None => JsUndefined
      end
  | _ => JsUndefined
  end.

(** [String.prototype.toUpperCase] on a character below 256, as code
    points: the sharp s becomes two letters, the micro sign and the y with
    diaeresis leave the range. *)
Definition js_upper_char (c : Ascii.ascii) : list N :=
  let n := Ascii.N_of_ascii c in
  if ((97 <=? n) && (n <=? 122))%N then [(n - 32)%N]
  else if (n =? 181)%N then [924%N]
  else if (n =? 223)%N then [83%N; 83%N]
  else if (n =? 255)%N then [376%N]
  else if ((224 <=? n) && (n <=? 254) && negb (n =? 247))%N then [(n - 32)%N]
  else [n].

Fixpoint js_to_upper (s : string) : list N :=
  match s with
  | EmptyString => []
  | String c s' => js_upper_char c ++ js_to_upper s'
  end.

Fixpoint code_points (s : string) : list N :=
  match s with
  | EmptyString => []
  | String c s' => Ascii.N_of_ascii c :: code_points s'
  end.

(** The line written in the page. *)
Inductive shown :=
| ShownError (detail : value)   (* 'Error: ' + data.error *)
| ShownCaught                   (* the catch branch *)
| ShownFake                     (* 'Prediction: ' and the three marks *)
| ShownReal
| ShownUnknown.

(** The mark for a label text, after [toUpperCase]. *)
Definition script_mark (label : string) : shown :=
  if bool_decide (js_to_upper label = code_points "FAKE") then ShownFake
  else if bool_decide (js_to_upper label = code_points "REAL") then ShownReal
  else ShownUnknown.

(** [(data.label || '').toUpperCase()] and the mark chosen; a label that is
    truthy and not a string has no [toUpperCase], which the [catch] branch
    reports. *)
Definition script_label (data : value) : shown :=
  match js_get data "label" with
  | JsValue (VStr s) => script_mark s
  | JsValue l => if js_truthy l then ShownCaught else script_mark ""
  | _ => script_mark ""
  end.

(** From [const data = await response.json()] on, for [data] parsed. *)
Definition script_display (data : value) : shown :=
  match js_get data "error" with
  | JsTypeError => ShownCaught
  | JsValue e => if js_truthy e then ShownError e else script_label data
  | JsUndefined => script_label data
  end.

(** What the page shows for an answer: a body that is not JSON makes
    [response.json()] fail, which the [catch] branch reports. *)
Definition page_shows (b : body) : shown :=
  match b with
  | Json data => script_display data
  | Html _ => ShownCaught
  end.

(** The request the script sends for the text typed. *)
Definition script_request (inputText : string) : request :=
  Request (Some (VDict [("message", VStr inputText)])) ∅.

(** Upper-casing of the letters a to z only. *)
Definition ascii_upper (c : Ascii.ascii) : Ascii.ascii :=
  let n := Ascii.N_of_ascii c in
  if ((97 <=? n) && (n <=? 122))%N then Ascii.ascii_of_N (n - 32) else c.

Fixpoint string_upper (s : string) : string :=
  match s with
  | EmptyString => EmptyString
  | String c s' => String (ascii_upper c) (string_upper s')
  end.

(** ** Physical loads *)

Inductive io_event :=
| IoOpen (path : string)     (* a call open(path, "rb") *)
| IoLoad (path : string).    (* a call pickle.load on the file opened at path *)

Section Service.

(** The feature representation produced by a vectorizer is opaque. *)
Context {features : Type}.

(** Python's [repr] on [str] (quoting and escaping), used by [str] on lists
    and dicts. *)
Variable repr_str : string → string.

(** ** Deserialized objects

    Any object other than [None], seen through the two attributes the
    service uses; an attribute the object lacks is [None] here. *)
Record pyobj := PyObj {
  transform : option (list string → result features);
  predict : option (features → result (list label_value))
}.

(** ** Files

    A path absent from the file system makes [open] raise
    [FileNotFoundError].  A file present is either one [open] fails on
    (a directory, no permission: the exception is given), or a readable file,
    given by the outcome of [pickle.load] on it: an exception, [None], or an
    object. *)
Inductive file :=
| Unopenable (e : exn)
| Pickle (r : result (option pyobj)).

(** ** Module state *)

Record state := State {
  MODEL_PATH : string;
  VECTORIZER_PATH : string;
  _loaded_model : option pyobj;
  _vectorizer : option pyobj;
  io_log : list io_event
}.

Definition set_loaded_model (m : option pyobj) (st : state) : state :=
  State (MODEL_PATH st) (VECTORIZER_PATH st) m (_vectorizer st) (io_log st).

Definition set_vectorizer (v : option pyobj) (st : state) : state :=
  State (MODEL_PATH st) (VECTORIZER_PATH st) (_loaded_model st) v (io_log st).

Definition log_io (e : io_event) (st : state) : state :=
  State (MODEL_PATH st) (VECTORIZER_PATH st) (_loaded_model st)
        (_vectorizer st) (io_log st ++ [e]).

(** [_loaded_model is not None and _vectorizer is not None] *)
Definition loaded (st : state) : bool :=
  bool_decide (is_Some (_loaded_model st)) && bool_decide (is_Some (_vectorizer st)).

(** ** Stateful computations that may raise *)

Definition M (A : Type) : Type := state → result A * state.

Definition ret {A} (a : A) : M A := fun st => (Ok a, st).
Definition raise {A} (e : exn) : M A := fun st => (Raise e, st).
Definition bind {A B} (m : M A) (k : A → M B) : M B :=
  fun st =>
    match m st with
    | (Ok a, st') => k a st'
    | (Raise e, st') => (Raise e, st')
    end.
Definition gets {A} (f : state → A) : M A := fun st => (Ok (f st), st).
Definition modify (f : state → state) : M unit := fun st => (Ok tt, f st).
Definition lift {A} (r : result A) : M A := fun st => (r, st).

(** [try: m except ...: h e] where [h e = None] when no clause matches [e]. *)
Definition try_except {A} (m : M A) (h : exn → option (M A)) : M A :=
  fun st =>
    match m st with
    | (Ok a, st') => (Ok a, st')
    | (Raise e, st') =>
        match h e with
        | Some k => k st'
        | None => (Raise e, st')
        end
    end.

Notation "x <-- m ;; k" := (bind m (fun x => k))
  (at level 100, m at level 99, k at level 200, right associativity).
Notation "m ;;; k" := (bind m (fun _ => k))
  (at level 100, k at level 200, right associativity).

(** ** Artifact store *)

(** An open file: its path and what [pickle.load] will make of it. *)
Definition open_file : Type := string * result (option pyobj).

Definition open_rb (fs : gmap string file) (path : string) : M open_file :=
  modify (log_io (IoOpen path)) ;;;
  match fs !! path with
  | None => raise (Exn FileNotFoundError path)
  | Some (Unopenable e) => raise e
  | Some (Pickle r) => ret (path, r)
  end.

Definition pickle_load (f : open_file) : M (option pyobj) :=
  modify (log_io (IoLoad (fst f))) ;;;
  lift (snd f).

(** Lines 40-47: the two loads, in program order. *)
Definition load_body (fs : gmap string file) : M unit :=
  mp <-- gets MODEL_PATH ;;
  mf <-- open_rb fs mp ;;
  m <-- pickle_load mf ;;
  modify (set_loaded_model m) ;;;
  vp <-- gets VECTORIZER_PATH ;;
  vf <-- open_rb fs vp ;;
  v <-- pickle_load vf ;;
  modify (set_vectorizer v).

(** ** Load coordinator

    In a run with a single thread [_artifact_lock] is free when the [with]
    statement is reached and is released when it is left, normally or not;
    the lock itself is represented in the concurrent model below. *)
Definition _load_artifacts_once (fs : gmap string file) : M unit :=
  present <-- gets loaded ;;
  if present then ret tt
  else
    absent <-- gets (fun st => negb (loaded st)) ;;
    if absent then load_body fs else ret tt.

(** Line 62-68: the body of the background thread started at import. *)
Definition _eager_load_background (fs : gmap string file) : M unit :=
  try_except (_load_artifacts_once fs)
    (fun e => if is_Exception (exn_cls e) then Some (ret tt) else None).

(** ** [str] on values *)

Fixpoint py_repr (v : value) : string :=
  match v with
  | VNone => "None"
  | VBool true => "True"
  | VBool false => "False"
  | VInt n => pretty n
  | VStr s => repr_str s
  | VList l => "[" +:+ String.concat ", " (map py_repr l) +:+ "]"
  | VDict d =>
      "{" +:+ String.concat ", "
                (map (fun kv => match kv with
                                | (k, x) => repr_str k +:+ ": " +:+ py_repr x
                                end) d) +:+ "}"
  end.

Definition py_str (v : value) : string :=
  match v with
  | VStr s => s
  | _ => py_repr v
  end.

(** ** Inference wrapper *)

(** [o.transform], for [o] the content of a slot. *)
Definition getattr_transform (o : option pyobj)
  : M (list string → result features) :=
  match o with
  | None => raise (Exn AttributeError "'NoneType' object has no attribute 'transform'")
  | Some obj =>
      match transform obj with
      | None => raise (Exn AttributeError "object has no attribute 'transform'")
      | Some f => ret f
      end
  end.

(** [o.predict], for [o] the content of a slot. *)
Definition getattr_predict (o : option pyobj)
  : M (features → result (list label_value)) :=
  match o with
  | None => raise (Exn AttributeError "'NoneType' object has no attribute 'predict'")
  | Some obj =>
      match predict obj with
      | None => raise (Exn AttributeError "object has no attribute 'predict'")
      | Some f => ret f
      end
  end.

(** [pred[0]] *)
Definition index0 (pred : list label_value) : M label_value :=
  match pred !! 0%nat with
  | None => raise (Exn IndexError "index 0 is out of bounds")
  | Some val => ret val
  end.

(** [val.item() if hasattr(val, "item") else val] *)
Definition val_py (val : label_value) : value :=
  match val with
  | NumpyScalar item => item
  | Native v => v
  end.

Definition _predict_text (fs : gmap string file) (message : string) : M string :=
  _load_artifacts_once fs ;;;
  vec <-- gets _vectorizer ;;
  tr <-- getattr_transform vec ;;
  X <-- lift (tr [message]) ;;
  mdl <-- gets _loaded_model ;;
  pr <-- getattr_predict mdl ;;
  pred <-- lift (pr X) ;;
  val <-- index0 pred ;;
  ret (py_str (val_py val)).

(** ** The inference pipeline, as the specification words it

    Transform [[message]] with the vectorizer, call the classifier on the
    result, take the first predicted value and give its textual form. *)
Definition spec_inference (vectorizer classifier : option pyobj)
    (message : string) : result string :=
  match vectorizer with
  | Some (PyObj (Some vtransform) _) =>
      match vtransform [message] with
      | Ok X =>
          match classifier with
          | Some (PyObj _ (Some cpredict)) =>
              match cpredict X with
              | Ok (first :: _) =>
                  Ok (py_str (match first with
                              | Native v => v
                              | NumpyScalar v => v
                              end))
              | Ok [] => Raise (Exn IndexError "index 0 is out of bounds")
              | Raise e => Raise e
              end
          | Some (PyObj _ None) =>
              Raise (Exn AttributeError "object has no attribute 'predict'")
          | None =>
              Raise (Exn AttributeError "'NoneType' object has no attribute 'predict'")
          end
      | Raise e => Raise e
      end
  | Some (PyObj None _) =>
      Raise (Exn AttributeError "object has no attribute 'transform'")
  | None =>
      Raise (Exn AttributeError "'NoneType' object has no attribute 'transform'")
  end.

(** ** HTTP handlers *)

Definition required_msg : string :=
  "Field 'message' is required and must be non-empty.".
Definition not_found_msg : string := "Model artifacts not found on server.".
Definition failed_msg : string := "Inference failed.".

Definition jsonify (d : list (string * value)) (code : nat) : response :=
  Response (Json (VDict d)) code.

Definition render (model_loaded : bool) (model_path : string)
    (prediction error : option string) (code : nat) : response :=
  Response (Html (DemoPage model_loaded model_path prediction error)) code.

(** GET / *)
Definition health : M response :=
  ld <-- gets loaded ;;
  mp <-- gets MODEL_PATH ;;
  vp <-- gets VECTORIZER_PATH ;;
  ret (jsonify [("status", VStr "ok"); ("model_loaded", VBool ld);
                ("model_path", VStr mp); ("vectorizer_path", VStr vp)] 200).

(** GET /demo *)
Definition demo : M response :=
  ld <-- gets loaded ;;
  mp <-- gets MODEL_PATH ;;
  ret (render ld mp None None 200).

(** POST /predict-form *)
Definition predict_form (fs : gmap string file) (req : request) : M response :=
  let message :=
    strip (match form req !! "message" with
           | Some s => s       (* [s or ""] is [s], also when [s] is empty *)
           | None => ""
           end) in
  if String.eqb message "" then
    ld <-- gets loaded ;;
    mp <-- gets MODEL_PATH ;;
    ret (render ld mp None (Some required_msg) 400)
  else
    try_except
      (label <-- _predict_text fs message ;;
       mp <-- gets MODEL_PATH ;;
       ret (render true mp (Some label) None 200))
      (fun e =>
         if is_FileNotFoundError (exn_cls e) then
           Some (mp <-- gets MODEL_PATH ;;
                 ret (render false mp None (Some not_found_msg) 503))
         else if is_Exception (exn_cls e) then
           Some (ld <-- gets loaded ;;
                 mp <-- gets MODEL_PATH ;;
                 ret (render ld mp None (Some failed_msg) 500))
         else None).

(** [request.get_json(silent=True) or {}] *)
Definition json_or_empty (req : request) : value :=
  match get_json_silent req with
  | Some v => if truthy v then v else VDict []
  | None => VDict []
  end.

(** [data.get("message", "")]: only a dict has [get]. *)
Definition data_get_message (data : value) : result value :=
  match data with
  | VDict d =>
      Ok (match dict_get d "message" with Some v => v | None => VStr "" end)
  | _ => Raise (Exn AttributeError "object has no attribute 'get'")
  end.

(** POST /predict *)
Definition predict_json (fs : gmap string file) (req : request) : M response :=
  let data := json_or_empty req in
  v <-- lift (data_get_message data) ;;
  let message := strip (py_str v) in
  if String.eqb message "" then
    ret (jsonify [("error", VStr required_msg)] 400)
  else
    try_except
      (label <-- _predict_text fs message ;;
       ret (jsonify [("label", VStr label)] 200))
      (fun e =>
         if is_FileNotFoundError (exn_cls e) then
           Some (ret (jsonify [("error", VStr not_found_msg)] 503))
         else if is_Exception (exn_cls e) then
           Some (ret (jsonify [("error", VStr failed_msg)] 500))
         else None).

(** ** Process start: lines 15-28 *)

(** [os.getenv(name) or default] *)
Definition getenv_or (env : gmap string string) (name default : string) : string :=
  match env !! name with
  | Some s => if String.eqb s "" then default else s
  | None => default
  end.

(** The state once the module is imported; [BASE_DIR] is the directory of
    application.py. *)
Definition module_init (env : gmap string string) (BASE_DIR : string) : state :=
  State (getenv_or env "MODEL_PATH" (os_path_join BASE_DIR "basic_classifier.pkl"))
        (getenv_or env "VECTORIZER_PATH" (os_path_join BASE_DIR "count_vectorizer.pkl"))
        None None [].

(** ** Sequences of calls

    What can run after the import, each call with the file system of its
    moment. *)
Inductive call :=
| CallLoad                            (* _load_artifacts_once() *)
| CallEager                           (* _eager_load_background() *)
| CallPredictText (message : string)  (* _predict_text(message) *)
| GetHealth
| GetDemo
| PostPredictForm (req : request)
| PostPredict (req : request).

Definition exec (fs : gmap string file) (c : call) (st : state) : state :=
  match c with
  | CallLoad => snd (_load_artifacts_once fs st)
  | CallEager => snd (_eager_load_background fs st)
  | CallPredictText m => snd (_predict_text fs m st)
  | GetHealth => snd (health st)
  | GetDemo => snd (demo st)
  | PostPredictForm req => snd (predict_form fs req st)
  | PostPredict req => snd (predict_json fs req st)
  end.

Fixpoint run (cs : list (gmap string file * call)) (st : state) : state :=
  match cs with
  | [] => st
  | (fs, c) :: cs' => run cs' (exec fs c st)
  end.

(** ** Concurrent callers of [_load_artifacts_once]

    Each thread executes the function one statement at a time; the two reads
    of the unlocked test of line 36 are separate steps.  A thread at
    [AtAcquire] can only step when the lock is free. *)
Inductive pc :=
| AtFastModel                    (* line 36: reads _loaded_model *)
| AtFastVec                      (* line 36: reads _vectorizer *)
| AtAcquire                      (* line 38: with _artifact_lock *)
| AtCheck                        (* line 39 *)
| AtOpenModel                    (* line 43 *)
| AtLoadModel (f : open_file)    (* line 44 *)
| AtOpenVec                      (* line 45 *)
| AtLoadVec (f : open_file)      (* line 46 *)
| AtRelease (r : result unit)    (* leaving the with block *)
| Returned (r : result unit).

Record config := Config {
  shared : state;
  lock : option nat;             (* the thread holding _artifact_lock *)
  threads : list pc
}.

(** The thread holds the lock. *)
Definition critical (p : pc) : bool :=
  match p with
  | AtCheck | AtOpenModel | AtLoadModel _ | AtOpenVec | AtLoadVec _
  | AtRelease _ => true
  | _ => false
  end.

(** The thread is between the locked test and the end of the two loads. *)
Definition loading (p : pc) : bool :=
  match p with
  | AtOpenModel | AtLoadModel _ | AtOpenVec | AtLoadVec _ => true
  | _ => false
  end.

(** Runs [m] on the shared state; the thread continues at [next a], or
    leaves the [with] block with the exception raised. *)
Definition perform {A} (m : M A) (next : A → pc) (st : state) : pc * state :=
  match m st with
  | (Ok a, st') => (next a, st')
  | (Raise e, st') => (AtRelease (Raise e), st')
  end.

(** One step of thread [i] at point [p], on the shared state [st] and the
    lock [lk]; [None] when the thread cannot move. *)
Definition pc_step (fs : gmap string file) (i : nat) (p : pc) (st : state)
    (lk : option nat) : option (pc * state * option nat) :=
  match p with
  | AtFastModel =>
      Some (match _loaded_model st with
            | Some _ => AtFastVec
            | None => AtAcquire
            end, st, lk)
  | AtFastVec =>
      Some (match _vectorizer st with
            | Some _ => Returned (Ok tt)
            | None => AtAcquire
            end, st, lk)
  | AtAcquire =>
      match lk with
      | None => Some (AtCheck, st, Some i)
      | Some _ => None
      end
  | AtCheck =>
      Some (if negb (loaded st) then AtOpenModel else AtRelease (Ok tt), st, lk)
  | AtOpenModel =>
      Some (perform (open_rb fs (MODEL_PATH st)) AtLoadModel st, lk)
  | AtLoadModel f =>
      Some (perform (m <-- pickle_load f ;; modify (set_loaded_model m))
              (fun _ => AtOpenVec) st, lk)
  | AtOpenVec =>
      Some (perform (open_rb fs (VECTORIZER_PATH st)) AtLoadVec st, lk)
  | AtLoadVec f =>
      Some (perform (v <-- pickle_load f ;; modify (set_vectorizer v))
              (fun _ => AtRelease (Ok tt)) st, lk)
  | AtRelease r => Some (Returned r, st, None)
  | Returned _ => None
  end.

(** One step of thread [i] of a configuration; [None] when there is no such
    thread or it cannot move. *)
Definition thread_step (fs : gmap string file) (i : nat) (c : config)
  : option config :=
  match threads c !! i with
  | None => None
  | Some p =>
      match pc_step fs i p (shared c) (lock c) with
      | Some (p', st', lk') => Some (Config st' lk' (<[i:=p']> (threads c)))
      | None => None
      end
  end.

(** Thread [i] is given [k] turns in a row, from point [p]. *)
Fixpoint pc_run (fs : gmap string file) (i k : nat) (p : pc) (st : state)
    (lk : option nat) : pc * state * option nat :=
  match k with
  | O => (p, st, lk)
  | S k' =>
      match pc_step fs i p st lk with
      | Some (p', st', lk') => pc_run fs i k' p' st' lk'
      | None => (p, st, lk)
      end
  end.

(** A schedule names, step after step, the thread that is given the
    processor and the file system of that moment; a thread that cannot move
    wastes its turn. *)
Fixpoint run_schedule (sched : list (gmap string file * nat)) (c : config)
  : config :=
  match sched with
  | [] => c
  | (fs, i) :: sched' =>
      run_schedule sched'
        (match thread_step fs i c with Some c' => c' | None => c end)
  end.

(** [n] threads enter the function when the state is [st]. *)
Definition init_config (st : state) (n : nat) : config :=
  Config st None (replicate n AtFastModel).

(** ** What holds while threads race

    The invariant of a race that starts in the unloaded state on files that
    are loadable, used in the proofs below. *)

(** The four physical steps of one complete load. *)
Definition full_log (mp vp : string) : list io_event :=
  [IoOpen mp; IoLoad mp; IoOpen vp; IoLoad vp].

(** Both artifact files are readable and deserialize to objects. *)
Definition good_files (fs : gmap string file) (mp vp : string) : Prop :=
  ∃ m v, fs !! mp = Some (Pickle (Ok (Some m)))
         ∧ fs !! vp = Some (Pickle (Ok (Some v))).

(** Both slots are non-null and no thread is inside the two loads. *)
Definition settled (c : config) : Prop :=
  loaded (shared c) = true
  ∧ ∀ j p, threads c !! j = Some p → loading p = false.

Section Race.

(** The paths and the log when the threads enter. *)
Variables (mp vp : string) (lg0 : list io_event).

Definition idle_ok (st : state) : Prop :=
  (_loaded_model st = None ∧ _vectorizer st = None ∧ io_log st = lg0)
  ∨ (loaded st = true ∧ io_log st = lg0 ++ full_log mp vp).

(** The shared state seen by the lock holder at each point. *)
Definition phase_ok (p : pc) (st : state) : Prop :=
  match p with
  | AtCheck => idle_ok st
  | AtOpenModel =>
      _loaded_model st = None ∧ _vectorizer st = None ∧ io_log st = lg0
  | AtLoadModel f =>
      _loaded_model st = None ∧ _vectorizer st = None
      ∧ io_log st = lg0 ++ [IoOpen mp] ∧ ∃ m, f = (mp, Ok (Some m))
  | AtOpenVec =>
      is_Some (_loaded_model st) ∧ _vectorizer st = None
      ∧ io_log st = lg0 ++ [IoOpen mp; IoLoad mp]
  | AtLoadVec f =>
      is_Some (_loaded_model st) ∧ _vectorizer st = None
      ∧ io_log st = lg0 ++ [IoOpen mp; IoLoad mp; IoOpen vp]
      ∧ ∃ v, f = (vp, Ok (Some v))
  | AtRelease r =>
      r = Ok tt ∧ loaded st = true ∧ io_log st = lg0 ++ full_log mp vp
  | _ => False
  end.

Definition race_inv (c : config) : Prop :=
  MODEL_PATH (shared c) = mp ∧ VECTORIZER_PATH (shared c) = vp
  ∧ (∀ j p, threads c !! j = Some p → critical p = true → lock c = Some j)
  ∧ (∀ j r, threads c !! j = Some (Returned r) →
            r = Ok tt ∧ loaded (shared c) = true)
  ∧ match lock c with
    | None => idle_ok (shared c)
    | Some t => ∃ p, threads c !! t = Some p ∧ phase_ok p (shared c)
    end.

End Race.

(** ** The lock, whatever the files

    What the lock guarantees in every configuration, also when loads fail. *)

(** A thread is inside the [with] block exactly when the lock names it, and
    the lock names an existing thread. *)
Definition mutex_ok (c : config) : Prop :=
  (∀ j p, threads c !! j = Some p → (critical p = true ↔ lock c = Some j))
  ∧ (∀ t, lock c = Some t → is_Some (threads c !! t)).

(** The thread has left the function. *)
Definition returned (p : pc) : bool :=
  match p with
  | Returned _ => true
  | _ => false
  end.

(** An upper bound on the steps a thread at [p] can still take. *)
Definition steps_left (p : pc) : nat :=
  match p with
  | AtFastModel => 9
  | AtFastVec => 8
  | AtAcquire => 7
  | AtCheck => 6
  | AtOpenModel => 5
  | AtLoadModel _ => 4
  | AtOpenVec => 3
  | AtLoadVec _ => 2
  | AtRelease _ => 1
  | Returned _ => 0
  end.

Definition total_left (c : config) : nat :=
  foldr (λ p acc, steps_left p + acc) 0 (threads c).

(** The number of turns of a schedule in which the thread named did move. *)
Fixpoint moves (sched : list (gmap string file * nat)) (c : config) : nat :=
  match sched with
  | [] => 0
  | (fs, i) :: sched' =>
      match thread_step fs i c with
      | Some c' => S (moves sched' c')
      | None => moves sched' c
      end
  end.

End Service.

(** * A concrete deployment

    The service installed in /var/app/current with no environment override,
    a vectorizer that maps each document to its length and a classifier that
    labels short documents FAKE.  The properties below are exercised on it. *)

Definition ex_repr_str (s : string) : string := "'" +:+ s +:+ "'".

Definition ex_vectorizer : @pyobj (list nat) :=
  PyObj (Some (fun docs => Ok (map String.length docs))) None.

Definition ex_model : @pyobj (list nat) :=
  PyObj None
    (Some (fun X =>
             Ok (map (fun n => NumpyScalar
                                 (VStr (if Nat.ltb n 45 then "FAKE" else "REAL")))
                     X))).

Definition ex_init : @state (list nat) := module_init ∅ "/var/app/current".

Definition ex_model_path : string := "/var/app/current/basic_classifier.pkl".
Definition ex_vectorizer_path : string := "/var/app/current/count_vectorizer.pkl".

(** Both artifacts in place. *)
Definition ex_fs : gmap string (@file (list nat)) :=
  <[ex_model_path := Pickle (Ok (Some ex_model))]>
    (<[ex_vectorizer_path := Pickle (Ok (Some ex_vectorizer))]> ∅).

(** The vectorizer file has not been copied yet. *)
Definition ex_fs_model_only : gmap string (@file (list nat)) :=
  <[ex_model_path := Pickle (Ok (Some ex_model))]> ∅.

(** The model file is not a pickle. *)
Definition ex_fs_corrupt : gmap string (@file (list nat)) :=
  <[ex_model_path := Pickle (Raise (Exn UnpicklingError "invalid load key"))]>
    (<[ex_vectorizer_path := Pickle (Ok (Some ex_vectorizer))]> ∅).

(** The state after a complete load on [ex_fs]. *)
Definition ex_loaded : @state (list nat) :=
  State ex_model_path ex_vectorizer_path (Some ex_model) (Some ex_vectorizer)
        (full_log ex_model_path ex_vectorizer_path).

(** The number of calls of [pickle.load] on [path] in a log. *)
(** The state after a load on [ex_fs_model_only] has failed. *)
Definition ex_partial : @state (list nat) :=
  State ex_model_path ex_vectorizer_path (Some ex_model) None
        [IoOpen ex_model_path; IoLoad ex_model_path; IoOpen ex_vectorizer_path].

Definition ex_message : string := "Eiffel Tower washes up on Delaware Beach.".

(** POST /predict with [{"message": ex_message}] *)
Definition ex_request : request :=
  Request (Some (VDict [("message", VStr ex_message)])) ∅.

(** Two threads race through [_load_artifacts_once] on [ex_fs]; the second
    finds the lock taken twice. *)
Definition ex_schedule : list (gmap string (@file (list nat)) * nat) :=
  map (λ i, (ex_fs, i)) [0; 1; 0; 1; 0; 0; 1; 0; 0; 0; 0; 0; 1; 1; 1; 1].

(** Thread 0 of two has taken the lock and is about to open the model
    file. *)
Definition ex_schedule_enter : list (gmap string (@file (list nat)) * nat) :=
  map (λ i, (ex_fs, i)) [0; 0; 0].

(** The two files were swapped before the load. *)
Definition ex_swapped : @state (list nat) :=
  State ex_model_path ex_vectorizer_path (Some ex_vectorizer) (Some ex_model)
        (full_log ex_model_path ex_vectorizer_path).

Fixpoint loads_of (path : string) (lg : list io_event) : nat :=
  match lg with
  | [] => 0
  | IoLoad q :: lg' => (if String.eqb q path then 1 else 0) + loads_of path lg'
  | IoOpen _ :: lg' => loads_of path lg'
  end.

(** * Properties *)

Section Properties.

Context {features : Type}.
Variable repr_str : string → string.

Implicit Types (fs : gmap string (@file features)) (st : @state features)
  (c : @config features) (p : @pc features)
  (vec mdl : option (@pyobj features)).


Ltac unfold_M :=
  unfold load_body, open_rb, pickle_load, try_except, bind, ret, raise,
    gets, modify, lift in *.

(** ** The load coordinator, one caller *)

Lemma loaded_true st :
  loaded st = true ↔ is_Some (_loaded_model st) ∧ is_Some (_vectorizer st).
Proof.
  unfold loaded. rewrite andb_true_iff, !bool_decide_eq_true. tauto.
Qed.

Lemma loaded_false_vec st : _vectorizer st = None → loaded st = false.
Proof.
  intros H. unfold loaded. rewrite H. rewrite andb_false_iff. right.
  apply bool_decide_eq_false. intros [? ?]; discriminate.
Qed.

Lemma load_once_loaded fs st :
  loaded st = true → _load_artifacts_once fs st = (Ok tt, st).
Proof.
  intros H. unfold _load_artifacts_once, bind, gets, ret. now rewrite H.
Qed.

Lemma load_once_unloaded fs st :
  loaded st = false → _load_artifacts_once fs st = load_body fs st.
Proof.
  intros H. unfold _load_artifacts_once, bind, gets, ret.
  cbv beta. rewrite H. cbv beta iota. rewrite H. reflexivity.
Qed.

(** What [load_body] does, by cases on the two files. *)
Lemma load_body_cases fs st r st' :
  load_body fs st = (r, st') →
  let mp := MODEL_PATH st in
  let vp := VECTORIZER_PATH st in
  MODEL_PATH st' = mp ∧ VECTORIZER_PATH st' = vp ∧
  ((∃ m v, fs !! mp = Some (Pickle (Ok m)) ∧ fs !! vp = Some (Pickle (Ok v)) ∧
           r = Ok tt ∧ _loaded_model st' = m ∧ _vectorizer st' = v ∧
           io_log st' = io_log st ++ [IoOpen mp; IoLoad mp; IoOpen vp; IoLoad vp])
   ∨ (∃ e, r = Raise e ∧ _loaded_model st' = _loaded_model st ∧
           _vectorizer st' = _vectorizer st ∧
           ((io_log st' = io_log st ++ [IoOpen mp] ∧
             (fs !! mp = None ∧ e = Exn FileNotFoundError mp
              ∨ fs !! mp = Some (Unopenable e)))
            ∨ (io_log st' = io_log st ++ [IoOpen mp; IoLoad mp] ∧
               fs !! mp = Some (Pickle (Raise e)))))
   ∨ (∃ e m, r = Raise e ∧ fs !! mp = Some (Pickle (Ok m)) ∧
             _loaded_model st' = m ∧ _vectorizer st' = _vectorizer st ∧
             ((io_log st' = io_log st ++ [IoOpen mp; IoLoad mp; IoOpen vp] ∧
               (fs !! vp = None ∧ e = Exn FileNotFoundError vp
                ∨ fs !! vp = Some (Unopenable e)))
              ∨ (io_log st' = io_log st ++ [IoOpen mp; IoLoad mp; IoOpen vp; IoLoad vp] ∧
                 fs !! vp = Some (Pickle (Raise e)))))).
Proof.
  destruct st as [mp vp m0 v0 lg]. unfold_M. simpl.
  destruct (fs !! mp) as [[e|[m|e]]|] eqn:Hm; simpl.
  - intros [= <- <-]. simpl. split_and!; try done. right. left.
    exists e. split_and!; try done. left. split; [done | by right].
  - destruct (fs !! vp) as [[e|[v|e]]|] eqn:Hv; simpl;
      intros [= <- <-]; simpl; rewrite <- ?app_assoc; simpl;
      (split_and!; try done).
    + right. right. exists e, m. split_and!; try done.
      left. split; [done | by right].
    + left. exists m, v. by split_and!.
    + right. right. exists e, m. split_and!; try done. by right.
    + right. right. exists (Exn FileNotFoundError vp), m.
      split_and!; try done. left. split; [done | by left].
  - intros [= <- <-]. simpl. rewrite <- ?app_assoc. simpl.
    split_and!; try done. right. left. exists e. split_and!; try done.
    by right.
  - intros [= <- <-]. simpl. split_and!; try done. right. left.
    exists (Exn FileNotFoundError mp). split_and!; try done.
    left. split; [done | by left].
Qed.

Lemma predict_text_eq fs message st :
  _predict_text repr_str fs message st =
  match _load_artifacts_once fs st with
  | (Ok _, st') =>
      (spec_inference repr_str (_vectorizer st') (_loaded_model st') message, st')
  | (Raise e, st') => (Raise e, st')
  end.
Proof.
  unfold _predict_text. unfold bind at 1.
  destruct (_load_artifacts_once fs st) as [[[]|e] st']; [|done].
  unfold spec_inference, getattr_transform, getattr_predict, index0.
  unfold_M.
  destruct (_vectorizer st') as [[[tr|] pr]|]; simpl; try done.
  destruct (tr [message]) as [X|e]; simpl; try done.
  destruct (_loaded_model st') as [[tr' [pr'|]]|]; simpl; try done.
  destruct (pr' X) as [[|[v|v] pred]|e]; simpl; done.
Qed.

Lemma spec_inference_ok vec mdl message label :
  spec_inference repr_str vec mdl message = Ok label → is_Some vec ∧ is_Some mdl.
Proof.
  unfold spec_inference.
  destruct vec as [[[tr|] pr]|]; try done.
  destruct (tr [message]); try done.
  destruct mdl as [[tr' [pr'|]]|]; try done.
Qed.

(** A successful load leaves the paths alone and either changes nothing or
    stores what the two files deserialize to. *)
Lemma load_once_ok fs st st' :
  _load_artifacts_once fs st = (Ok tt, st') →
  (loaded st = true ∧ st' = st)
  ∨ (loaded st = false ∧
     fs !! MODEL_PATH st = Some (Pickle (Ok (_loaded_model st'))) ∧
     fs !! VECTORIZER_PATH st = Some (Pickle (Ok (_vectorizer st'))) ∧
     MODEL_PATH st' = MODEL_PATH st ∧ VECTORIZER_PATH st' = VECTORIZER_PATH st ∧
     io_log st' = io_log st ++ [IoOpen (MODEL_PATH st); IoLoad (MODEL_PATH st);
                                IoOpen (VECTORIZER_PATH st);
                                IoLoad (VECTORIZER_PATH st)]).
Proof.
  destruct (loaded st) eqn:Hl.
  - rewrite load_once_loaded by done. intros [= <-]. by left.
  - rewrite load_once_unloaded by done. intros H. right.
    apply load_body_cases in H as (Hmp & Hvp & H).
    destruct H as [(m & v & Hm & Hv & _ & <- & <- & Hlog)
                  |[(e & ? & _)|(e & m & ? & _)]]; try done.
Qed.

Lemma load_once_paths fs st r st' :
  _load_artifacts_once fs st = (r, st') →
  MODEL_PATH st' = MODEL_PATH st ∧ VECTORIZER_PATH st' = VECTORIZER_PATH st.
Proof.
  destruct (loaded st) eqn:Hl.
  - rewrite load_once_loaded by done. by intros [= <- <-].
  - rewrite load_once_unloaded by done. intros H.
    apply load_body_cases in H as (Hmp & Hvp & _). done.
Qed.

(** ** What a call does to the state *)

Lemma predict_text_state fs message st :
  snd (_predict_text repr_str fs message st) = snd (_load_artifacts_once fs st).
Proof.
  rewrite predict_text_eq.
  by destruct (_load_artifacts_once fs st) as [[[]|e] st'].
Qed.

Lemma eager_state fs st :
  snd (_eager_load_background fs st) = snd (_load_artifacts_once fs st).
Proof.
  unfold _eager_load_background, try_except.
  destruct (_load_artifacts_once fs st) as [[[]|e] st']; [done|].
  by destruct (is_Exception (exn_cls e)).
Qed.

(** The two POST handlers, with the monad unfolded. *)
Lemma predict_form_eq fs req st :
  predict_form repr_str fs req st =
  let message :=
    strip (match form req !! "message" with Some s => s | None => "" end) in
  if String.eqb message "" then
    (Ok (render (loaded st) (MODEL_PATH st) None (Some required_msg) 400), st)
  else
    match _predict_text repr_str fs message st with
    | (Ok label, st') =>
        (Ok (render true (MODEL_PATH st') (Some label) None 200), st')
    | (Raise e, st') =>
        if is_FileNotFoundError (exn_cls e) then
          (Ok (render false (MODEL_PATH st') None (Some not_found_msg) 503), st')
        else if is_Exception (exn_cls e) then
          (Ok (render (loaded st') (MODEL_PATH st') None (Some failed_msg) 500), st')
        else (Raise e, st')
    end.
Proof.
  unfold predict_form. cbv zeta.
  destruct (String.eqb _ ""); [done|].
  unfold try_except, bind, ret, gets.
  destruct (_predict_text _ _ _ _) as [[label|e] st']; [done|].
  destruct (is_FileNotFoundError _); [done|].
  by destruct (is_Exception _).
Qed.

Lemma predict_json_eq fs req st :
  predict_json repr_str fs req st =
  match data_get_message (json_or_empty req) with
  | Raise e => (Raise e, st)
  | Ok v =>
      let message := strip (py_str repr_str v) in
      if String.eqb message "" then
        (Ok (jsonify [("error", VStr required_msg)] 400), st)
      else
        match _predict_text repr_str fs message st with
        | (Ok label, st') => (Ok (jsonify [("label", VStr label)] 200), st')
        | (Raise e, st') =>
            if is_FileNotFoundError (exn_cls e) then
              (Ok (jsonify [("error", VStr not_found_msg)] 503), st')
            else if is_Exception (exn_cls e) then
              (Ok (jsonify [("error", VStr failed_msg)] 500), st')
            else (Raise e, st')
        end
  end.
Proof.
  unfold predict_json. cbv zeta. unfold bind at 1. unfold lift.
  destruct (data_get_message _) as [v|e]; [|done].
  destruct (String.eqb _ ""); [done|].
  unfold try_except, bind, ret.
  destruct (_predict_text _ _ _ _) as [[label|e] st']; [done|].
  destruct (is_FileNotFoundError _); [done|].
  by destruct (is_Exception _).
Qed.

Lemma predict_form_state fs req st :
  snd (predict_form repr_str fs req st) = st
  ∨ snd (predict_form repr_str fs req st) = snd (_load_artifacts_once fs st).
Proof.
  rewrite predict_form_eq. cbv zeta.
  destruct (String.eqb _ ""); [by left|]. right.
  rewrite <- (predict_text_state fs
    (strip match form req !! "message" with Some s => s | None => "" end)).
  destruct (_predict_text _ _ _ _) as [[label|e] st']; [done|].
  destruct (is_FileNotFoundError _); [done|].
  by destruct (is_Exception _).
Qed.

Lemma predict_json_state fs req st :
  snd (predict_json repr_str fs req st) = st
  ∨ snd (predict_json repr_str fs req st) = snd (_load_artifacts_once fs st).
Proof.
  rewrite predict_json_eq.
  destruct (data_get_message _) as [v|e]; [|by left].
  cbv zeta. destruct (String.eqb _ ""); [by left|]. right.
  rewrite <- (predict_text_state fs (strip (py_str repr_str v))).
  destruct (_predict_text _ _ _ _) as [[label|e] st']; [done|].
  destruct (is_FileNotFoundError _); [done|].
  by destruct (is_Exception _).
Qed.

(** Every call leaves the state alone or changes it as a call of
    [_load_artifacts_once] does. *)
Lemma exec_state fs cl st :
  exec repr_str fs cl st = st ∨ exec repr_str fs cl st = snd (_load_artifacts_once fs st).
Proof.
  destruct cl; simpl.
  - by right.
  - right. apply eager_state.
  - right. apply predict_text_state.
  - by left.
  - by left.
  - apply predict_form_state.
  - apply predict_json_state.
Qed.

Lemma exec_loaded fs cl st : loaded st = true → exec repr_str fs cl st = st.
Proof.
  intros H. destruct (exec_state fs cl st) as [-> | ->]; [done|].
  by rewrite load_once_loaded.
Qed.

Lemma run_loaded cs st : loaded st = true → run repr_str cs st = st.
Proof.
  revert st. induction cs as [|[fs cl] cs IH]; intros st H; simpl; [done|].
  rewrite exec_loaded by done. by apply IH.
Qed.

Lemma exec_paths fs cl st :
  MODEL_PATH (exec repr_str fs cl st) = MODEL_PATH st
  ∧ VECTORIZER_PATH (exec repr_str fs cl st) = VECTORIZER_PATH st.
Proof.
  destruct (exec_state fs cl st) as [-> | ->]; [done|].
  destruct (_load_artifacts_once fs st) as [r st'] eqn:H.
  by apply load_once_paths in H.
Qed.

Lemma run_paths cs st :
  MODEL_PATH (run repr_str cs st) = MODEL_PATH st
  ∧ VECTORIZER_PATH (run repr_str cs st) = VECTORIZER_PATH st.
Proof.
  revert st. induction cs as [|[fs cl] cs IH]; intros st; simpl; [done|].
  destruct (IH (exec repr_str fs cl st)) as [-> ->]. apply exec_paths.
Qed.

(** ** The load coordinator, many callers *)

Section RaceProofs.

Variables (mp vp : string) (lg0 : list io_event).

Lemma phase_ok_critical p st : phase_ok mp vp lg0 p st → critical p = true.
Proof. by destruct p. Qed.

Lemma race_inv_holder c i p :
  race_inv mp vp lg0 c → threads c !! i = Some p → critical p = true →
  lock c = Some i ∧ phase_ok mp vp lg0 p (shared c).
Proof.
  intros (_ & _ & Hcrit & _ & Hlock) Hp Hc.
  pose proof (Hcrit i p Hp Hc) as Hl. split; [done|].
  rewrite Hl in Hlock. destruct Hlock as (q & Hq & Hph). congruence.
Qed.

(** A thread outside the lock moves to a point outside the lock. *)
Lemma race_inv_goto c i p p' :
  race_inv mp vp lg0 c → threads c !! i = Some p →
  critical p = false → critical p' = false →
  (∀ r, p' = Returned r → r = Ok tt ∧ loaded (shared c) = true) →
  race_inv mp vp lg0 (Config (shared c) (lock c) (<[i:=p']> (threads c))).
Proof.
  intros (Hmp & Hvp & Hcrit & Hret & Hlock) Hp Hc Hc' Hr.
  assert (Hi : i < length (threads c)) by (by eapply lookup_lt_Some).
  unfold race_inv. simpl. split_and!; try done.
  - intros j q Hq Hcq. destruct (decide (i = j)) as [<-|Hne].
    + rewrite list_lookup_insert_eq in Hq by done. congruence.
    + rewrite list_lookup_insert_ne in Hq by done. eauto.
  - intros j r Hq. destruct (decide (i = j)) as [<-|Hne].
    + rewrite list_lookup_insert_eq in Hq by done.
      apply Hr. congruence.
    + rewrite list_lookup_insert_ne in Hq by done. eauto.
  - destruct (lock c) as [t|]; [|done].
    destruct Hlock as (q & Hq & Hph). exists q. split; [|done].
    rewrite list_lookup_insert_ne; [done|].
    intros ->. apply phase_ok_critical in Hph. congruence.
Qed.

(** The lock holder moves on, still holding the lock. *)
Lemma race_inv_holder_move c i p p' st' :
  race_inv mp vp lg0 c → threads c !! i = Some p → critical p = true →
  MODEL_PATH st' = mp → VECTORIZER_PATH st' = vp →
  (loaded (shared c) = true → loaded st' = true) →
  phase_ok mp vp lg0 p' st' →
  race_inv mp vp lg0 (Config st' (lock c) (<[i:=p']> (threads c))).
Proof.
  intros Hinv Hp Hc Hmp' Hvp' Hld Hph'.
  destruct (race_inv_holder c i p Hinv Hp Hc) as [Hl _].
  destruct Hinv as (Hmp & Hvp & Hcrit & Hret & Hlock).
  assert (Hi : i < length (threads c)) by (by eapply lookup_lt_Some).
  unfold race_inv. simpl. split_and!; try done.
  - intros j q Hq Hcq. destruct (decide (i = j)) as [<-|Hne]; [done|].
    rewrite list_lookup_insert_ne in Hq by done. eauto.
  - intros j r Hq. destruct (decide (i = j)) as [<-|Hne].
    + rewrite list_lookup_insert_eq in Hq by done.
      injection Hq as ->. by destruct Hph'.
    + rewrite list_lookup_insert_ne in Hq by done.
      destruct (Hret j r Hq). eauto.
  - rewrite Hl. exists p'. split; [|done].
    by rewrite list_lookup_insert_eq.
Qed.

Lemma race_inv_acquire c i :
  race_inv mp vp lg0 c → threads c !! i = Some AtAcquire → lock c = None →
  race_inv mp vp lg0 (Config (shared c) (Some i) (<[i:=AtCheck]> (threads c))).
Proof.
  intros (Hmp & Hvp & Hcrit & Hret & Hlock) Hp Hl.
  assert (Hi : i < length (threads c)) by (by eapply lookup_lt_Some).
  rewrite Hl in Hlock.
  unfold race_inv. simpl. split_and!; try done.
  - intros j q Hq Hcq. destruct (decide (i = j)) as [<-|Hne]; [done|].
    rewrite list_lookup_insert_ne in Hq by done.
    specialize (Hcrit j q Hq Hcq). congruence.
  - intros j r Hq. destruct (decide (i = j)) as [<-|Hne].
    + by rewrite list_lookup_insert_eq in Hq.
    + rewrite list_lookup_insert_ne in Hq by done. eauto.
  - exists AtCheck. split; [|done]. by rewrite list_lookup_insert_eq.
Qed.

Lemma race_inv_release c i r :
  race_inv mp vp lg0 c → threads c !! i = Some (AtRelease r) →
  race_inv mp vp lg0 (Config (shared c) None (<[i:=Returned r]> (threads c))).
Proof.
  intros Hinv Hp.
  destruct (race_inv_holder c i _ Hinv Hp eq_refl) as [Hl (-> & Hld & Hlog)].
  destruct Hinv as (Hmp & Hvp & Hcrit & Hret & Hlock).
  assert (Hi : i < length (threads c)) by (by eapply lookup_lt_Some).
  unfold race_inv. simpl. split_and!; try done.
  - intros j q Hq Hcq. destruct (decide (i = j)) as [<-|Hne].
    + rewrite list_lookup_insert_eq in Hq by done. by injection Hq as <-.
    + rewrite list_lookup_insert_ne in Hq by done.
      specialize (Hcrit j q Hq Hcq). congruence.
  - intros j r Hq. destruct (decide (i = j)) as [<-|Hne].
    + rewrite list_lookup_insert_eq in Hq by done.
      split; [congruence | done].
    + rewrite list_lookup_insert_ne in Hq by done. eauto.
  - by right.
Qed.

Lemma race_inv_vec_loaded c :
  race_inv mp vp lg0 c → is_Some (_vectorizer (shared c)) →
  loaded (shared c) = true.
Proof.
  intros (_ & _ & _ & _ & Hlock) [v Hv].
  assert (Hidle : idle_ok mp vp lg0 (shared c) → loaded (shared c) = true).
  { intros [(_ & H & _)|(H & _)]; [congruence | done]. }
  destruct (lock c) as [t|]; [|by apply Hidle].
  destruct Hlock as (p & _ & Hph).
  destruct p; simpl in Hph; try done; try (by apply Hidle);
    destruct Hph as (H1 & H2 & H3); congruence.
Qed.

Lemma race_inv_step fs i c c' :
  good_files fs mp vp → race_inv mp vp lg0 c →
  thread_step fs i c = Some c' → race_inv mp vp lg0 c'.
Proof.
  intros (m & v & Hm & Hv) Hinv Hstep.
  unfold thread_step in Hstep.
  destruct (threads c !! i) as [p|] eqn:Hp; [|done].
  destruct (pc_step fs i p (shared c) (lock c)) as [[[p' st'] lk']|] eqn:Hpc;
    [|done].
  injection Hstep as <-.
  pose proof Hinv as (Hmp & Hvp & _).
  destruct p as [| | | | |f| |f|r|r]; simpl in Hpc.
  - injection Hpc as <- <- <-. eapply race_inv_goto; eauto.
    + by destruct (_loaded_model _).
    + intros r. by destruct (_loaded_model _).
  - injection Hpc as <- <- <-. eapply race_inv_goto; eauto.
    + by destruct (_vectorizer _).
    + intros r. destruct (_vectorizer _) eqn:Hvec; [|done].
      intros [= <-]. split; [done|].
      apply race_inv_vec_loaded; [done | by rewrite Hvec].
  - destruct (lock c) eqn:Hl; [done|]. injection Hpc as <- <- <-.
    by apply race_inv_acquire.
  - injection Hpc as <- <- <-.
    destruct (race_inv_holder _ _ _ Hinv Hp eq_refl) as [Hl Hph].
    eapply race_inv_holder_move; eauto.
    destruct Hph as [(H1 & H2 & H3)|(H1 & H2)].
    + rewrite loaded_false_vec by done. by simpl.
    + rewrite H1. by simpl.
  - destruct (race_inv_holder _ _ _ Hinv Hp eq_refl) as [Hl (H1 & H2 & H3)].
    unfold perform, open_rb, bind, modify, ret in Hpc.
    rewrite Hmp in Hpc. simpl in Hpc. rewrite Hm in Hpc.
    injection Hpc as <- <- <-.
    eapply race_inv_holder_move; eauto. simpl.
    split_and!; try done; [by rewrite H3 | by exists m].
  - destruct (race_inv_holder _ _ _ Hinv Hp eq_refl)
      as [Hl (H1 & H2 & H3 & m' & ->)].
    unfold perform, pickle_load, bind, modify, lift in Hpc. simpl in Hpc.
    injection Hpc as <- <- <-.
    eapply race_inv_holder_move; eauto.
    { by rewrite (loaded_false_vec (shared c)). }
    simpl. split_and!; try done. by rewrite H3, <- app_assoc.
  - destruct (race_inv_holder _ _ _ Hinv Hp eq_refl) as [Hl (H1 & H2 & H3)].
    unfold perform, open_rb, bind, modify, ret in Hpc.
    rewrite Hvp in Hpc. simpl in Hpc. rewrite Hv in Hpc.
    injection Hpc as <- <- <-.
    eapply race_inv_holder_move; eauto. simpl.
    split_and!; try done; [by rewrite H3, <- app_assoc | by exists v].
  - destruct (race_inv_holder _ _ _ Hinv Hp eq_refl)
      as [Hl (H1 & H2 & H3 & v' & ->)].
    unfold perform, pickle_load, bind, modify, lift in Hpc. simpl in Hpc.
    injection Hpc as <- <- <-.
    eapply race_inv_holder_move; eauto.
    { by rewrite (loaded_false_vec (shared c)). }
    simpl. split_and!; try done.
    + apply loaded_true. simpl. split; [done | by eexists].
    + by rewrite H3, <- app_assoc.
  - injection Hpc as <- <- <-. by apply race_inv_release.
  - done.
Qed.

Lemma race_inv_run sched c :
  Forall (λ x, good_files (fst x) mp vp) sched →
  race_inv mp vp lg0 c → race_inv mp vp lg0 (run_schedule sched c).
Proof.
  intros Hs. revert c. induction Hs as [|[fs i] sched Hg _ IH]; intros c Hinv.
  - done.
  - simpl. apply IH. destruct (thread_step fs i c) as [c'|] eqn:Hstep; [|done].
    by eapply race_inv_step.
Qed.

Lemma race_inv_init st n :
  MODEL_PATH st = mp → VECTORIZER_PATH st = vp →
  _loaded_model st = None → _vectorizer st = None → io_log st = lg0 →
  race_inv mp vp lg0 (init_config st n).
Proof.
  intros Hmp Hvp Hm Hv Hlg. unfold race_inv, init_config. simpl.
  split_and!; try done.
  - intros j p Hp. apply lookup_replicate in Hp as [-> _]. done.
  - intros j r Hp. apply lookup_replicate in Hp as [? _]. done.
  - by left.
Qed.

(** Under the invariant the log is the initial one followed by the
    beginning of a single complete load. *)
Lemma race_inv_log c :
  race_inv mp vp lg0 c →
  ∃ k, io_log (shared c) = lg0 ++ take k (full_log mp vp).
Proof.
  intros (_ & _ & _ & _ & Hlock).
  assert (Hidle : idle_ok mp vp lg0 (shared c) →
                  ∃ k, io_log (shared c) = lg0 ++ take k (full_log mp vp)).
  { intros [(_ & _ & ->)|(_ & ->)].
    - exists 0. simpl. by rewrite app_nil_r.
    - by exists 4. }
  destruct (lock c) as [t|]; [|by apply Hidle].
  destruct Hlock as (p & _ & Hph). destruct p; simpl in Hph; try done.
  - by apply Hidle.
  - destruct Hph as (_ & _ & ->). exists 0. simpl. by rewrite app_nil_r.
  - destruct Hph as (_ & _ & -> & _). by exists 1.
  - destruct Hph as (_ & _ & ->). by exists 2.
  - destruct Hph as (_ & _ & -> & _). by exists 3.
  - destruct Hph as (_ & _ & ->). by exists 4.
Qed.

(** When every thread has returned, one complete load has taken place. *)
Lemma race_inv_all_returned c :
  race_inv mp vp lg0 c → threads c ≠ [] →
  (∀ j p, threads c !! j = Some p → ∃ r, p = Returned r) →
  loaded (shared c) = true ∧ io_log (shared c) = lg0 ++ full_log mp vp
  ∧ ∀ j p, threads c !! j = Some p → p = Returned (Ok tt).
Proof.
  intros (_ & _ & _ & Hret & Hlock) Hne Hall.
  assert (Hld : loaded (shared c) = true).
  { destruct (threads c) as [|p ths] eqn:Hths; [done|].
    destruct (Hall 0 p eq_refl) as [r ->].
    by destruct (Hret 0 r eq_refl). }
  split_and!; [done| |].
  - destruct (lock c) as [t|].
    + destruct Hlock as (p & Hp & Hph). destruct (Hall t p Hp) as [r ->]. done.
    + destruct Hlock as [(_ & Hv & _)|(_ & H)]; [|done].
      by rewrite (loaded_false_vec _ Hv) in Hld.
  - intros j p Hp. destruct (Hall j p Hp) as [r ->].
    by destruct (Hret j r Hp) as [-> _].
Qed.

End RaceProofs.

(** Once both slots are non-null and no thread is inside the two loads,
    no step changes the shared state. *)
Lemma settled_step fs i c c' :
  settled c → thread_step fs i c = Some c' →
  settled c' ∧ shared c' = shared c.
Proof.
  intros [Hld Hth] Hstep. unfold thread_step in Hstep.
  destruct (threads c !! i) as [p|] eqn:Hp; [|done].
  destruct (pc_step fs i p (shared c) (lock c)) as [[[p' st'] lk']|] eqn:Hpc;
    [|done].
  injection Hstep as <-.
  assert (Hi : i < length (threads c)) by (by eapply lookup_lt_Some).
  assert (st' = shared c ∧ loading p' = false) as [-> Hp'].
  { pose proof (Hth i p Hp) as Hnl.
    destruct p; simpl in Hpc, Hnl; try done.
    - injection Hpc as <- <- <-. by destruct (_loaded_model _).
    - injection Hpc as <- <- <-. by destruct (_vectorizer _).
    - destruct (lock c); [done|]. by injection Hpc as <- <- <-.
    - injection Hpc as <- <- <-. by rewrite Hld.
    - by injection Hpc as <- <- <-. }
  split; [|done]. split; [done|]. simpl.
  intros j q Hq. destruct (decide (i = j)) as [<-|Hne].
  - rewrite list_lookup_insert_eq in Hq by done. congruence.
  - rewrite list_lookup_insert_ne in Hq by done. eauto.
Qed.

Lemma settled_run sched c :
  settled c →
  settled (run_schedule sched c) ∧ shared (run_schedule sched c) = shared c.
Proof.
  revert c. induction sched as [|[fs i] sched IH]; intros c Hs; [done|].
  simpl. destruct (thread_step fs i c) as [c'|] eqn:Hstep.
  - destruct (settled_step _ _ _ _ Hs Hstep) as [Hs' <-]. by apply IH.
  - by apply IH.
Qed.

(** A thread that is given [k] turns in a row. *)
Lemma pc_run_stuck fs i k p st lk :
  pc_step fs i p st lk = None → pc_run fs i k p st lk = (p, st, lk).
Proof. intros H. destruct k; simpl; [done | by rewrite H]. Qed.

Lemma run_schedule_alone fs i k c p :
  threads c !! i = Some p →
  run_schedule (replicate k (fs, i)) c =
  let '(p', st', lk') := pc_run fs i k p (shared c) (lock c) in
  Config st' lk' (<[i:=p']> (threads c)).
Proof.
  revert c p. induction k as [|k IH]; intros [st lk ths] p Hp; simpl in *.
  - by rewrite list_insert_id.
  - unfold thread_step. simpl. rewrite Hp.
    destruct (pc_step fs i p st lk) as [[[p' st'] lk']|] eqn:Hpc.
    + assert (Hi : i < length ths) by (by eapply lookup_lt_Some).
      rewrite (IH _ p') by (by apply list_lookup_insert_eq).
      simpl. destruct (pc_run _ _ _ _ _ _) as [[p'' st''] lk''].
      by rewrite list_insert_insert_eq.
    + rewrite (IH _ p) by done. simpl. by rewrite pc_run_stuck.
Qed.

(** Alone, nine turns take a thread through [_load_artifacts_once]: the
    thread returns what the function returns and leaves the state the
    function leaves. *)
Lemma pc_run_load fs i st :
  pc_run fs i 9 AtFastModel st None =
  (Returned (fst (_load_artifacts_once fs st)),
   snd (_load_artifacts_once fs st), None).
Proof.
  destruct st as [mp vp m0 v0 lg].
  unfold _load_artifacts_once.
  destruct (fs !! mp) as [[e|[m|e]]|] eqn:Hm;
    destruct (fs !! vp) as [[e'|[v|e']]|] eqn:Hv;
    destruct m0 as [m0|], v0 as [v0|];
    do 10 (simpl; unfold perform, loaded; unfold_M; simpl; rewrite ?Hm, ?Hv);
    reflexivity.
Qed.

Lemma thread_alone_is_sequential fs i c :
  threads c !! i = Some AtFastModel → lock c = None →
  run_schedule (replicate 9 (fs, i)) c =
  Config (snd (_load_artifacts_once fs (shared c))) None
         (<[i:=Returned (fst (_load_artifacts_once fs (shared c)))]> (threads c)).
Proof.
  intros Hp Hl. rewrite (run_schedule_alone fs i 9 c AtFastModel Hp).
  by rewrite Hl, pc_run_load.
Qed.


(** ** Claims on the load coordinator *)

Lemma load_once_good fs st m v :
  loaded st = false →
  fs !! MODEL_PATH st = Some (Pickle (Ok m)) →
  fs !! VECTORIZER_PATH st = Some (Pickle (Ok v)) →
  _load_artifacts_once fs st =
  (Ok tt, State (MODEL_PATH st) (VECTORIZER_PATH st) m v
            (io_log st ++ full_log (MODEL_PATH st) (VECTORIZER_PATH st))).
Proof.
  intros Hl Hm Hv. rewrite load_once_unloaded by done.
  destruct st as [mp vp m0 v0 lg]. simpl in *. unfold_M. simpl.
  rewrite Hm. simpl. rewrite Hv. simpl.
  unfold set_vectorizer, set_loaded_model, log_io, full_log. simpl.
  by rewrite <- !app_assoc.
Qed.


Lemma run_schedule_length sched c :
  length (threads (run_schedule sched c)) = length (threads c).
Proof.
  revert c. induction sched as [|[fs i] sched IH]; intros c; simpl; [done|].
  rewrite IH. unfold thread_step.
  destruct (threads c !! i) as [p|]; [|done].
  destruct (pc_step fs i p (shared c) (lock c)) as [[[p' st'] lk']|]; [|done].
  simpl. by rewrite length_insert.
Qed.

(** C2 (as amended).  A call that returns normally leaves both slots
    non-null unless an artifact file deserializes to [None].  Once both slots
    are non-null, every call of [_load_artifacts_once], and every later call
    of the service, returns with the state unchanged: no [open], no
    [pickle.load].  With concurrent callers: once both slots are non-null and
    no thread is inside the two loads, no step of any thread changes the
    shared state; and when threads race from the unloaded state on files that
    are loadable, the log only ever grows by the beginning of one complete
    load, every thread that has returned has returned normally with both
    slots non-null, and when all have returned exactly one complete load has
    been performed. *)
Theorem load_once_idempotent :
  (∀ fs st st',
     _load_artifacts_once fs st = (Ok tt, st') →
     fs !! MODEL_PATH st ≠ Some (Pickle (Ok None)) →
     fs !! VECTORIZER_PATH st ≠ Some (Pickle (Ok None)) →
     loaded st' = true)
  ∧ (∀ st, loaded st = true →
       (∀ fs, _load_artifacts_once fs st = (Ok tt, st))
       ∧ (∀ cs, run repr_str cs st = st))
  ∧ (∀ c sched, settled c →
       shared (run_schedule sched c) = shared c
       ∧ settled (run_schedule sched c))
  ∧ (∀ st n sched,
       _loaded_model st = None → _vectorizer st = None →
       Forall (λ x, good_files (fst x) (MODEL_PATH st) (VECTORIZER_PATH st))
              sched →
       let c := run_schedule sched (init_config st n) in
       let one_load := full_log (MODEL_PATH st) (VECTORIZER_PATH st) in
       (∃ k, io_log (shared c) = io_log st ++ take k one_load)
       ∧ (∀ j r, threads c !! j = Some (Returned r) →
                 r = Ok tt ∧ loaded (shared c) = true)
       ∧ (n ≠ 0 →
          (∀ j p, threads c !! j = Some p → ∃ r, p = Returned r) →
          io_log (shared c) = io_log st ++ one_load)).
Proof.
  split_and!.
  - intros fs st st' Hcall Hm Hv.
    apply load_once_ok in Hcall as [[Hl ->]|(_ & Hm' & Hv' & _)]; [done|].
    apply loaded_true. split.
    + destruct (_loaded_model st'); [by eexists | done].
    + destruct (_vectorizer st'); [by eexists | done].
  - intros st Hl. split.
    + intros fs. by apply load_once_loaded.
    + intros cs. by apply run_loaded.
  - intros c sched Hs. destruct (settled_run sched c Hs). done.
  - intros st n sched Hm Hv Hs c one_load.
    assert (Hinv : race_inv (MODEL_PATH st) (VECTORIZER_PATH st) (io_log st) c).
    { apply race_inv_run; [done|]. by apply race_inv_init. }
    split_and!.
    + by apply race_inv_log.
    + by destruct Hinv as (_ & _ & _ & Hret & _).
    + intros Hn Hall.
      eapply race_inv_all_returned in Hall as (_ & Hlog & _); eauto.
      intros Hnil. apply (f_equal length) in Hnil.
      unfold c in Hnil. rewrite run_schedule_length in Hnil.
      simpl in Hnil. rewrite length_replicate in Hnil. done.
Qed.

(** ** Claims on the JSON endpoint *)

Lemma lstrip_all_space s : all_space s = true → lstrip s = "".
Proof.
  induction s as [|c s IH]; simpl; [done|].
  intros [Hc Hs]%andb_true_iff. rewrite Hc. by apply IH.
Qed.

Lemma strip_all_space s : all_space s = true → strip s = "".
Proof. intros H. unfold strip. by rewrite lstrip_all_space. Qed.

Lemma rstrip_empty s : rstrip s = "" → all_space s = true.
Proof.
  induction s as [|c s IH]; simpl; [done|].
  destruct (rstrip s) eqn:Hr; [|done].
  destruct (is_space c); [|done]. intros _. by apply IH.
Qed.

Lemma all_space_lstrip s : all_space (lstrip s) = true → all_space s = true.
Proof.
  induction s as [|c s IH]; simpl; [done|].
  destruct (is_space c) eqn:Hc; simpl; [done|]. by rewrite Hc.
Qed.

(** [strip] gives the empty string exactly on whitespace-only strings. *)
Lemma strip_empty_iff s : strip s = "" ↔ all_space s = true.
Proof.
  split; [|apply strip_all_space].
  intros H. by apply all_space_lstrip, rstrip_empty.
Qed.

Lemma string_eqb_nonempty s : s ≠ "" → String.eqb s "" = false.
Proof. intros H. by apply String.eqb_neq. Qed.


(** What [_predict_text] raises when a load from the unloaded state fails. *)
Lemma predict_text_load_fails fs message st e st' :
  _load_artifacts_once fs st = (Raise e, st') →
  _predict_text repr_str fs message st = (Raise e, st').
Proof. intros H. by rewrite predict_text_eq, H. Qed.

Lemma load_once_missing fs st :
  loaded st = false →
  (fs !! MODEL_PATH st = None
   ∨ ∃ m, fs !! MODEL_PATH st = Some (Pickle (Ok m))
          ∧ fs !! VECTORIZER_PATH st = None) →
  ∃ e st', _load_artifacts_once fs st = (Raise e, st')
           ∧ exn_cls e = FileNotFoundError.
Proof.
  intros Hl Hfs. rewrite load_once_unloaded by done.
  destruct st as [mp vp m0 v0 lg]. simpl in *. unfold_M. simpl.
  destruct Hfs as [-> | (m & -> & Hv)]; simpl.
  - by eexists _, _.
  - rewrite Hv. simpl. by eexists _, _.
Qed.

Lemma load_once_corrupt fs st e :
  loaded st = false →
  (fs !! MODEL_PATH st = Some (Pickle (Raise e))
   ∨ ∃ m, fs !! MODEL_PATH st = Some (Pickle (Ok m))
          ∧ fs !! VECTORIZER_PATH st = Some (Pickle (Raise e))) →
  ∃ st', _load_artifacts_once fs st = (Raise e, st').
Proof.
  intros Hl Hfs. rewrite load_once_unloaded by done.
  destruct st as [mp vp m0 v0 lg]. simpl in *. unfold_M. simpl.
  destruct Hfs as [-> | (m & -> & Hv)]; simpl.
  - by eexists.
  - rewrite Hv. simpl. by eexists.
Qed.

(** C1 (as amended).  On POST /predict with a message [v]:
    an empty message is answered 400 with an [error] key; when inference
    raises a [FileNotFoundError] the answer is 503 with an [error] key, and
    this is what a missing artifact file gives; when inference raises any
    other [Exception] the answer is 500 with the fixed body
    [{"error": "Inference failed."}], the same whatever the exception, and this
    is also what an artifact file that fails to deserialize gives. *)
Theorem predict_json_error_mapping fs req st v :
  data_get_message (json_or_empty req) = Ok v →
  let message := strip (py_str repr_str v) in
  let answer := predict_json repr_str fs req st in
  (message = "" →
   answer = (Ok (jsonify [("error", VStr required_msg)] 400), st))
  ∧ (message ≠ "" →
     (∀ e st',
        _predict_text repr_str fs message st = (Raise e, st') →
        (is_FileNotFoundError (exn_cls e) = true →
         answer = (Ok (jsonify [("error", VStr not_found_msg)] 503), st'))
        ∧ (is_FileNotFoundError (exn_cls e) = false →
           is_Exception (exn_cls e) = true →
           answer = (Ok (jsonify [("error", VStr failed_msg)] 500), st')))
     ∧ (loaded st = false →
        (fs !! MODEL_PATH st = None
         ∨ ∃ m, fs !! MODEL_PATH st = Some (Pickle (Ok m))
                ∧ fs !! VECTORIZER_PATH st = None) →
        ∃ st', answer = (Ok (jsonify [("error", VStr not_found_msg)] 503), st'))
     ∧ (∀ e, loaded st = false →
        is_FileNotFoundError (exn_cls e) = false →
        is_Exception (exn_cls e) = true →
        (fs !! MODEL_PATH st = Some (Pickle (Raise e))
         ∨ ∃ m, fs !! MODEL_PATH st = Some (Pickle (Ok m))
                ∧ fs !! VECTORIZER_PATH st = Some (Pickle (Raise e))) →
        ∃ st', answer = (Ok (jsonify [("error", VStr failed_msg)] 500), st'))).
Proof.
  intros Hv message answer. unfold answer. rewrite predict_json_eq, Hv.
  fold message. cbv zeta. split.
  - intros ->. done.
  - intros Hne. rewrite (string_eqb_nonempty _ Hne). split_and!.
    + intros e st' ->. split.
      * by intros ->.
      * by intros -> ->.
    + intros Hl Hfs.
      destruct (load_once_missing fs st Hl Hfs) as (e & st' & Hcall & He).
      rewrite (predict_text_load_fails _ _ _ _ _ Hcall), He. simpl.
      by exists st'.
    + intros e Hl Hnf Hex Hfs.
      destruct (load_once_corrupt fs st e Hl Hfs) as (st' & Hcall).
      rewrite (predict_text_load_fails _ _ _ _ _ Hcall), Hnf, Hex.
      by exists st'.
Qed.

(** A body that is JSON but neither an object nor falsy (a non-empty list
    or string, a non-zero number, [true]) has no [get]: the handler raises
    [AttributeError] before its [try]. *)
Lemma predict_json_non_object fs req st x :
  get_json_silent req = Some x → truthy x = true →
  (∀ d, x ≠ VDict d) →
  ∃ e, predict_json repr_str fs req st = (Raise e, st)
       ∧ exn_cls e = AttributeError.
Proof.
  intros Hx Ht Hd. rewrite predict_json_eq. unfold json_or_empty.
  rewrite Hx, Ht.
  destruct x as [|b|n|s|l|d]; simpl; try (by eexists _; split; [reflexivity|]).
  by destruct (Hd d).
Qed.


(** ** Claims on inference *)

(** C4.  For every message, [_predict_text] first runs
    [_load_artifacts_once]; if that raises, so does it, and otherwise its
    outcome is that of the pipeline of the specification on the two slots.
    So, with a vectorizer and a classifier in the slots, it transforms the
    one-element list [[message]], calls [predict] on the result, takes the
    first predicted value, and returns its text: the value itself for a
    string, the decimal numeral for an integer, both also when the value is
    a numpy scalar. *)
Theorem predict_text_pipeline fs message st :
  _predict_text repr_str fs message st
  = match _load_artifacts_once fs st with
    | (Ok _, st') =>
        (spec_inference repr_str (_vectorizer st') (_loaded_model st') message,
         st')
    | (Raise e, st') => (Raise e, st')
    end
  ∧ ∀ st' vzr clf tr pr X first rest,
      _load_artifacts_once fs st = (Ok tt, st') →
      _vectorizer st' = Some vzr → transform vzr = Some tr →
      tr [message] = Ok X →
      _loaded_model st' = Some clf → predict clf = Some pr →
      pr X = Ok (first :: rest) →
      _predict_text repr_str fs message st
      = (Ok (py_str repr_str (val_py first)), st')
      ∧ (∀ s, first = Native (VStr s) ∨ first = NumpyScalar (VStr s) →
              py_str repr_str (val_py first) = s)
      ∧ (∀ n, first = Native (VInt n) ∨ first = NumpyScalar (VInt n) →
              py_str repr_str (val_py first) = pretty n).
Proof.
  split; [apply predict_text_eq|].
  intros st' vzr clf tr pr X first rest Hload Hvec Htr HX Hmdl Hpr Hpred.
  rewrite predict_text_eq, Hload, Hvec, Hmdl.
  destruct vzr as [tr0 pr0], clf as [tr1 pr1]. simpl in Htr, Hpr. subst.
  simpl. rewrite HX, Hpred. split_and!.
  - by destruct first.
  - by intros s [-> | ->].
  - by intros n [-> | ->].
Qed.

(** C6.  When the artifacts are loaded, or when a call of [_predict_text]
    returns a label (which leaves them loaded), a second call with the same
    message gives the same outcome and leaves the state as the first did;
    this whatever calls were served in between and whatever the file systems
    at those moments. *)
Theorem predict_text_deterministic fs1 fs2 cs message st r1 st1 :
  _predict_text repr_str fs1 message st = (r1, st1) →
  loaded st = true ∨ is_ok r1 = true →
  loaded st1 = true
  ∧ _predict_text repr_str fs2 message (run repr_str cs st1) = (r1, st1).
Proof.
  intros Hcall Hpre.
  assert (loaded st1 = true
          ∧ r1 = spec_inference repr_str (_vectorizer st1)
                   (_loaded_model st1) message) as [Hl1 Hr1].
  { rewrite predict_text_eq in Hcall. destruct Hpre as [Hl | Hok].
    - rewrite load_once_loaded in Hcall by done. by injection Hcall as <- <-.
    - destruct (_load_artifacts_once fs1 st) as [[[]|e] st'].
      + injection Hcall as <- <-. split; [|done].
        destruct (spec_inference _ _ _ _) as [label|] eqn:Hs; [|done].
        apply spec_inference_ok in Hs. apply loaded_true. tauto.
      + by injection Hcall as <- <-. }
  split; [done|].
  rewrite run_loaded by done.
  rewrite predict_text_eq, load_once_loaded by done. by rewrite Hr1.
Qed.

(** C10.  When [_predict_text] returns a label both slots are non-null.  So
    the page /predict-form renders on success, with [model_loaded=True], says
    what the state is, and from then on GET / reports [model_loaded] true,
    whatever calls come in between. *)
Theorem predict_text_success_loaded fs message st label st' :
  _predict_text repr_str fs message st = (Ok label, st') →
  loaded st' = true
  ∧ (∀ req,
       strip (match form req !! "message" with Some s => s | None => "" end)
       = message →
       message ≠ "" →
       predict_form repr_str fs req st
       = (Ok (render (loaded st') (MODEL_PATH st') (Some label) None 200), st'))
  ∧ (∀ cs,
       fst (health (run repr_str cs st'))
       = Ok (jsonify [("status", VStr "ok"); ("model_loaded", VBool true);
                      ("model_path", VStr (MODEL_PATH st'));
                      ("vectorizer_path", VStr (VECTORIZER_PATH st'))] 200)).
Proof.
  intros Hcall.
  assert (Hl : loaded st' = true).
  { rewrite predict_text_eq in Hcall.
    destruct (_load_artifacts_once fs st) as [[[]|e] st1]; [|done].
    injection Hcall as Hs <-. apply spec_inference_ok in Hs.
    apply loaded_true. tauto. }
  split_and!; [done| |].
  - intros req Hmsg Hne. rewrite predict_form_eq. cbv zeta. rewrite Hmsg.
    rewrite (string_eqb_nonempty _ Hne), Hcall. by rewrite Hl.
  - intros cs. rewrite run_loaded by done.
    unfold health, bind, gets, ret. simpl. by rewrite Hl.
Qed.

(** ** Claims on the health endpoint and on the configuration *)




Lemma pc_step_paths fs i p st lk p' st' lk' :
  pc_step fs i p st lk = Some (p', st', lk') →
  MODEL_PATH st' = MODEL_PATH st ∧ VECTORIZER_PATH st' = VECTORIZER_PATH st.
Proof.
  destruct p as [| | | | |f| |f|r|r]; simpl;
    try (by intros [= <- <- <-]).
  - by destruct lk; [|intros [= <- <- <-]].
  - unfold perform, open_rb, bind, modify, ret, raise.
    destruct (fs !! MODEL_PATH st) as [[e|r]|]; by intros [= <- <- <-].
  - unfold perform, pickle_load, bind, modify, lift. simpl.
    destruct (snd f); by intros [= <- <- <-].
  - unfold perform, open_rb, bind, modify, ret, raise.
    destruct (fs !! VECTORIZER_PATH st) as [[e|r]|]; by intros [= <- <- <-].
  - unfold perform, pickle_load, bind, modify, lift. simpl.
    destruct (snd f); by intros [= <- <- <-].
Qed.

Lemma run_schedule_paths sched c :
  MODEL_PATH (shared (run_schedule sched c)) = MODEL_PATH (shared c)
  ∧ VECTORIZER_PATH (shared (run_schedule sched c)) = VECTORIZER_PATH (shared c).
Proof.
  revert c. induction sched as [|[fs i] sched IH]; intros c; simpl; [done|].
  destruct (IH (match thread_step fs i c with Some c' => c' | None => c end))
    as [-> ->].
  unfold thread_step. destruct (threads c !! i) as [p|]; [|done].
  destruct (pc_step fs i p (shared c) (lock c)) as [[[p' st'] lk']|] eqn:Hpc;
    [|done].
  simpl. by apply pc_step_paths in Hpc.
Qed.

(** C8.  At import each path is the value of its environment variable when
    that is set and not empty, and otherwise the file of the installation
    directory [base] (for a directory name that is not empty and does not end
    with a slash: [base/basic_classifier.pkl] and [base/count_vectorizer.pkl]).
    No call served afterwards and no step of a thread inside
    [_load_artifacts_once] changes either path. *)
Theorem paths_resolved_at_start (env : gmap string string) (base : string) :
  let st : @state features := module_init env base in
  (∀ path, env !! "MODEL_PATH" = Some path → path ≠ "" → MODEL_PATH st = path)
  ∧ (env !! "MODEL_PATH" = None ∨ env !! "MODEL_PATH" = Some "" →
     MODEL_PATH st = os_path_join base "basic_classifier.pkl")
  ∧ (∀ path, env !! "VECTORIZER_PATH" = Some path → path ≠ "" →
     VECTORIZER_PATH st = path)
  ∧ (env !! "VECTORIZER_PATH" = None ∨ env !! "VECTORIZER_PATH" = Some "" →
     VECTORIZER_PATH st = os_path_join base "count_vectorizer.pkl")
  ∧ (base ≠ "" → ends_with_slash base = false →
     os_path_join base "basic_classifier.pkl" = base +:+ "/basic_classifier.pkl"
     ∧ os_path_join base "count_vectorizer.pkl" = base +:+ "/count_vectorizer.pkl")
  ∧ (∀ cs, MODEL_PATH (run repr_str cs st) = MODEL_PATH st
           ∧ VECTORIZER_PATH (run repr_str cs st) = VECTORIZER_PATH st)
  ∧ (∀ n sched,
       MODEL_PATH (shared (run_schedule sched (init_config st n))) = MODEL_PATH st
       ∧ VECTORIZER_PATH (shared (run_schedule sched (init_config st n)))
         = VECTORIZER_PATH st).
Proof.
  intros st. split_and!.
  - intros p Hp Hne. simpl. unfold getenv_or. rewrite Hp.
    by rewrite (string_eqb_nonempty _ Hne).
  - intros [H | H]; simpl; unfold getenv_or; by rewrite H.
  - intros p Hp Hne. simpl. unfold getenv_or. rewrite Hp.
    by rewrite (string_eqb_nonempty _ Hne).
  - intros [H | H]; simpl; unfold getenv_or; by rewrite H.
  - intros Hne Hsl. unfold os_path_join. simpl.
    by rewrite (string_eqb_nonempty _ Hne), Hsl.
  - intros cs. apply run_paths.
  - intros n sched. apply (run_schedule_paths sched (init_config st n)).
Qed.

(** ** The lock, whatever the files *)

(** How a step moves a thread with respect to the lock: it stays outside,
    acquires, stays inside, or releases. *)
Lemma pc_step_lock fs i p st lk p' st' lk' :
  pc_step fs i p st lk = Some (p', st', lk') →
  (critical p = false ∧ critical p' = false ∧ lk' = lk ∧ st' = st)
  ∨ (p = AtAcquire ∧ lk = None ∧ lk' = Some i ∧ p' = AtCheck ∧ st' = st)
  ∨ (critical p = true ∧ critical p' = true ∧ lk' = lk)
  ∨ (critical p = true ∧ critical p' = false ∧ lk' = None ∧ st' = st).
Proof.
  destruct p as [| | | | |f| |f|r|r]; simpl.
  - intros [= <- <- <-]. left. by destruct (_loaded_model st).
  - intros [= <- <- <-]. left. by destruct (_vectorizer st).
  - destruct lk; [done|]. intros [= <- <- <-]. right. by left.
  - intros [= <- <- <-]. right. right. left. by destruct (negb _).
  - unfold perform. destruct (open_rb _ _ _) as [[a|e] s]; intros [= <- <- <-];
      right; right; by left.
  - unfold perform. destruct (bind _ _ _) as [[a|e] s]; intros [= <- <- <-];
      right; right; by left.
  - unfold perform. destruct (open_rb _ _ _) as [[a|e] s]; intros [= <- <- <-];
      right; right; by left.
  - unfold perform. destruct (bind _ _ _) as [[a|e] s]; intros [= <- <- <-];
      right; right; by left.
  - intros [= <- <- <-]. right. right. by right.
  - done.
Qed.

Lemma mutex_ok_step fs i c c' :
  mutex_ok c → thread_step fs i c = Some c' → mutex_ok c'.
Proof.
  intros [Hcrit Hlock] Hstep. unfold thread_step in Hstep.
  destruct (threads c !! i) as [p|] eqn:Hp; [|done].
  destruct (pc_step fs i p (shared c) (lock c)) as [[[p' st'] lk']|] eqn:Hpc;
    [|done].
  injection Hstep as <-.
  assert (Hi : i < length (threads c)) by (by eapply lookup_lt_Some).
  pose proof (Hcrit i p Hp) as Hip.
  apply pc_step_lock in Hpc
    as [(Hc & Hc' & -> & _)|[(-> & Hl & -> & -> & _)
       |[(Hc & Hc' & ->)|(Hc & Hc' & -> & _)]]];
    split; simpl.
  - intros j q Hq. destruct (decide (i = j)) as [<-|Hne].
    + rewrite list_lookup_insert_eq in Hq by done. injection Hq as <-.
      rewrite Hc'. rewrite Hc in Hip. done.
    + rewrite list_lookup_insert_ne in Hq by done. by apply Hcrit.
  - intros t Ht. apply lookup_lt_is_Some. rewrite length_insert.
    apply lookup_lt_is_Some. by apply Hlock.
  - intros j q Hq. destruct (decide (i = j)) as [<-|Hne].
    + rewrite list_lookup_insert_eq in Hq by done. by injection Hq as <-.
    + rewrite list_lookup_insert_ne in Hq by done.
      pose proof (Hcrit j q Hq) as Hjq. rewrite Hl in Hjq.
      split; [intros H; apply Hjq in H; done | congruence].
  - intros t [= <-]. apply lookup_lt_is_Some. by rewrite length_insert.
  - assert (Hl : lock c = Some i) by (by apply Hip).
    intros j q Hq. destruct (decide (i = j)) as [<-|Hne].
    + rewrite list_lookup_insert_eq in Hq by done. by injection Hq as <-.
    + rewrite list_lookup_insert_ne in Hq by done. by apply Hcrit.
  - intros t Ht. apply lookup_lt_is_Some. rewrite length_insert.
    apply lookup_lt_is_Some. by apply Hlock.
  - assert (Hl : lock c = Some i) by (by apply Hip).
    intros j q Hq. destruct (decide (i = j)) as [<-|Hne].
    + rewrite list_lookup_insert_eq in Hq by done. injection Hq as <-.
      by rewrite Hc'.
    + rewrite list_lookup_insert_ne in Hq by done.
      pose proof (Hcrit j q Hq) as Hjq. rewrite Hl in Hjq.
      split; [|done]. intros H. apply Hjq in H. congruence.
  - done.
Qed.

Lemma mutex_ok_run sched c : mutex_ok c → mutex_ok (run_schedule sched c).
Proof.
  revert c. induction sched as [|[fs i] sched IH]; intros c Hc; simpl; [done|].
  apply IH. destruct (thread_step fs i c) as [c'|] eqn:Hstep; [|done].
  by eapply mutex_ok_step.
Qed.

Lemma mutex_ok_init st n : mutex_ok (init_config st n).
Proof.
  split; simpl; [|done].
  intros j p Hp. apply lookup_replicate in Hp as [-> _]. done.
Qed.

Lemma reachable_mutex_ok st n sched :
  mutex_ok (run_schedule sched (init_config st n)).
Proof. apply mutex_ok_run, mutex_ok_init. Qed.

(** X1.  However many threads call [_load_artifacts_once], whatever the
    schedule and whatever the files (missing, unreadable, corrupt), at every
    moment at most one thread is inside the [with _artifact_lock] block, the
    lock names exactly that thread, and the lock is free exactly when no
    thread is inside: an exception raised inside the block releases it. *)
Theorem lock_mutual_exclusion st n sched :
  let c := run_schedule sched (init_config st n) in
  mutex_ok c
  ∧ (∀ i j p q, threads c !! i = Some p → threads c !! j = Some q →
                critical p = true → critical q = true → i = j)
  ∧ (lock c = None ↔ ∀ j p, threads c !! j = Some p → critical p = false).
Proof.
  intros c.
  assert (Hm : mutex_ok c) by apply reachable_mutex_ok.
  split; [done|]. destruct Hm as [Hcrit Hlock]. split.
  - intros i j p q Hp Hq Hcp Hcq.
    apply (Hcrit i p Hp) in Hcp. apply (Hcrit j q Hq) in Hcq. congruence.
  - split.
    + intros Hl j p Hp. destruct (critical p) eqn:Hc; [|done].
      apply (Hcrit j p Hp) in Hc. congruence.
    + intros Hnone. destruct (lock c) as [t|] eqn:Hl; [|done].
      destruct (Hlock t eq_refl) as [p Hp].
      pose proof (Hnone t p Hp) as Hc.
      assert (critical p = true) by (by apply (Hcrit t p Hp)). congruence.
Qed.

(** X2.  In a race of callers of [_load_artifacts_once], a step that changes
    the shared state (a slot or the log of [open] and [pickle.load] calls) is
    a step of the thread that holds the lock, and it keeps the lock: no file
    is opened or deserialized, and no slot assigned, outside the lock. *)
Theorem io_only_under_lock st n sched fs i c' :
  let c := run_schedule sched (init_config st n) in
  thread_step fs i c = Some c' →
  shared c' ≠ shared c →
  lock c = Some i ∧ lock c' = Some i.
Proof.
  intros c Hstep Hne.
  destruct (reachable_mutex_ok st n sched) as [Hcrit _]. fold c in Hcrit.
  unfold thread_step in Hstep.
  destruct (threads c !! i) as [p|] eqn:Hp; [|done].
  destruct (pc_step fs i p (shared c) (lock c)) as [[[p' st'] lk']|] eqn:Hpc;
    [|done].
  injection Hstep as <-. simpl in *.
  apply pc_step_lock in Hpc
    as [(_ & _ & _ & ->)|[(_ & _ & _ & _ & ->)
       |[(Hc & _ & ->)|(_ & _ & _ & ->)]]]; try done.
  assert (lock c = Some i) by (by apply (Hcrit i p Hp)). done.
Qed.

(** A thread that has not returned can move, unless it waits for a lock
    that is taken. *)
Lemma pc_step_enabled fs i p st lk :
  returned p = false → (p = AtAcquire → lk = None) →
  is_Some (pc_step fs i p st lk).
Proof.
  intros Hr Hacq. destruct p; simpl; try done; try (by eexists).
  rewrite Hacq by done. by eexists.
Qed.

Lemma all_returned_or_not (ths : list (@pc features)) :
  (∀ j p, ths !! j = Some p → returned p = true)
  ∨ ∃ j p, ths !! j = Some p ∧ returned p = false.
Proof.
  induction ths as [|q ths IH].
  - left. by intros j p.
  - destruct (returned q) eqn:Hq.
    + destruct IH as [Hall|(j & p & Hp & Hr)].
      * left. intros [|j] p Hp; simpl in Hp; [by injection Hp as <- | eauto].
      * right. by exists (S j), p.
    + right. by exists 0, q.
Qed.

(** X3.  A race of callers of [_load_artifacts_once] cannot deadlock: in
    every configuration reached, either every thread has returned or some
    thread can take a step, whatever the files are at that moment. *)
Theorem no_deadlock st n sched :
  let c := run_schedule sched (init_config st n) in
  (∀ j p, threads c !! j = Some p → returned p = true)
  ∨ ∃ i, ∀ fs, is_Some (thread_step fs i c).
Proof.
  intros c.
  destruct (reachable_mutex_ok st n sched) as [Hcrit Hlock].
  fold c in Hcrit, Hlock.
  destruct (lock c) as [t|] eqn:Hl.
  - right. exists t. intros fs. destruct (Hlock t eq_refl) as [p Hp].
    assert (Hc : critical p = true) by (by apply (Hcrit t p Hp)).
    unfold thread_step. rewrite Hp, Hl.
    destruct (pc_step_enabled fs t p (shared c) (Some t)) as [[[p' st'] lk'] ->].
    + by destruct p.
    + by intros ->.
    + by eexists.
  - destruct (all_returned_or_not (threads c)) as [Hall|(i & p & Hp & Hr)].
    + by left.
    + right. exists i. intros fs. unfold thread_step. rewrite Hp, Hl.
      destruct (pc_step_enabled fs i p (shared c) None) as [[[p' st'] lk'] ->];
        [done | done | by eexists].
Qed.

(** Replacing the point of one thread changes the total by the difference. *)
Lemma total_left_insert (ths : list (@pc features)) i p p' :
  ths !! i = Some p →
  foldr (λ q acc, steps_left q + acc) 0 (<[i:=p']> ths) + steps_left p
  = foldr (λ q acc, steps_left q + acc) 0 ths + steps_left p'.
Proof.
  revert i. induction ths as [|q ths IH]; intros [|i] Hp; simpl in *;
    try done.
  - injection Hp as ->. lia.
  - specialize (IH i Hp). lia.
Qed.

Lemma pc_step_decreases fs i p st lk p' st' lk' :
  pc_step fs i p st lk = Some (p', st', lk') →
  (steps_left p' < steps_left p)%nat.
Proof.
  destruct p as [| | | | |f| |f|r|r]; simpl.
  - intros [= <- <- <-]. destruct (_loaded_model st); simpl; lia.
  - intros [= <- <- <-]. destruct (_vectorizer st); simpl; lia.
  - destruct lk; [done|]. intros [= <- <- <-]. simpl. lia.
  - intros [= <- <- <-]. destruct (negb _); simpl; lia.
  - unfold perform. destruct (open_rb _ _ _) as [[a|e] s]; intros [= <- <- <-];
      simpl; lia.
  - unfold perform. destruct (bind _ _ _) as [[a|e] s]; intros [= <- <- <-];
      simpl; lia.
  - unfold perform. destruct (open_rb _ _ _) as [[a|e] s]; intros [= <- <- <-];
      simpl; lia.
  - unfold perform. destruct (bind _ _ _) as [[a|e] s]; intros [= <- <- <-];
      simpl; lia.
  - intros [= <- <- <-]. simpl. lia.
  - done.
Qed.

Lemma thread_step_decreases fs i c c' :
  thread_step fs i c = Some c' → (total_left c' < total_left c)%nat.
Proof.
  unfold thread_step, total_left.
  destruct (threads c !! i) as [p|] eqn:Hp; [|done].
  destruct (pc_step fs i p (shared c) (lock c)) as [[[p' st'] lk']|] eqn:Hpc;
    [|done].
  intros [= <-]. simpl.
  apply pc_step_decreases in Hpc.
  pose proof (total_left_insert (threads c) i p p' Hp). lia.
Qed.

Lemma moves_bounded sched c :
  (moves sched c + total_left (run_schedule sched c) ≤ total_left c)%nat.
Proof.
  revert c. induction sched as [|[fs i] sched IH]; intros c; simpl; [lia|].
  destruct (thread_step fs i c) as [c'|] eqn:Hstep.
  - apply thread_step_decreases in Hstep. specialize (IH c'). lia.
  - apply IH.
Qed.

(** X4.  No caller of [_load_artifacts_once] spins: in a race of [n] threads
    each thread moves at most nine times, so whatever the schedule and the
    files at most [9 * n] turns are not wasted, and a schedule in which
    every turn moves a thread has at most [9 * n] turns. *)
Theorem callers_take_bounded_steps st n sched :
  (moves sched (init_config st n)
   + total_left (run_schedule sched (init_config st n)) ≤ 9 * n)%nat
  ∧ (moves sched (init_config st n) ≤ 9 * n)%nat
  ∧ (moves sched (init_config st n) = 9 * n →
     ∀ j p, threads (run_schedule sched (init_config st n)) !! j = Some p →
            returned p = true).
Proof.
  assert (Hinit : total_left (init_config st n) = 9 * n).
  { unfold total_left, init_config. simpl.
    induction n as [|n IH]; simpl; [done|]. rewrite IH. lia. }
  pose proof (moves_bounded sched (init_config st n)) as Hb.
  rewrite Hinit in Hb. split_and!; [done | lia |].
  intros Hfull j p Hp.
  assert (Hz : total_left (run_schedule sched (init_config st n)) = 0) by lia.
  unfold total_left in Hz.
  assert (Hall : ∀ (ths : list (@pc features)) j p,
            foldr (λ q acc, steps_left q + acc) 0 ths = 0 →
            ths !! j = Some p → steps_left p = 0).
  { clear. intros ths. induction ths as [|q ths IH]; intros [|j] p Hs Hp;
      simpl in *; try done.
    - injection Hp as ->. lia.
    - apply (IH j p); [lia | done]. }
  specialize (Hall _ j p Hz Hp). by destruct p.
Qed.

(** ** More on loading *)

(** X5.  One call of [_load_artifacts_once] performs the beginning of one
    complete load (open model, deserialize model, open vectorizer,
    deserialize vectorizer) and nothing else: nothing at all exactly when
    both slots are already non-null, the vectorizer file is touched only
    after the model file has been deserialized and stored by this call, and
    a call that returns normally from a state that is not loaded has
    performed all four steps. *)
Theorem load_performs_prefix fs st r st' :
  _load_artifacts_once fs st = (r, st') →
  ∃ k, io_log st'
       = io_log st ++ take k (full_log (MODEL_PATH st) (VECTORIZER_PATH st))
       ∧ (k ≤ 4)%nat
       ∧ (k = 0 ↔ loaded st = true)
       ∧ ((3 ≤ k)%nat →
          fs !! MODEL_PATH st = Some (Pickle (Ok (_loaded_model st'))))
       ∧ (r = Ok tt → loaded st = false → k = 4).
Proof.
  destruct (loaded st) eqn:Hl.
  - rewrite load_once_loaded by done. intros [= <- <-]. exists 0.
    simpl. rewrite app_nil_r. split_and!; try done; lia.
  - rewrite load_once_unloaded by done. intros Hb.
    apply load_body_cases in Hb as (_ & _ & Hcases).
    destruct Hcases as [(m & v & Hm & _ & _ & <- & _ & ->)
                       |[(e & -> & _ & _ & [[-> _]|[-> _]])
                        |(e & m & -> & Hm & <- & _ & [[-> _]|[-> _]])]].
    + exists 4. split_and!; try done; lia.
    + exists 1. split_and!; try done; lia.
    + exists 2. split_and!; try done; lia.
    + exists 3. split_and!; try done; lia.
    + exists 4. split_and!; try done; lia.
Qed.

(** X6.  The body of the background thread never lets an [Exception] out:
    it leaves the state as the call of [_load_artifacts_once] it makes leaves
    it, returns normally when that call does or raises an [Exception], and
    lets out only what is not an [Exception] ([KeyboardInterrupt],
    [SystemExit]).  With an artifact file missing it returns normally and the
    service stays not loaded. *)
Theorem eager_load_swallows fs st :
  snd (_eager_load_background fs st) = snd (_load_artifacts_once fs st)
  ∧ (fst (_load_artifacts_once fs st) = Ok tt →
     fst (_eager_load_background fs st) = Ok tt)
  ∧ (∀ e, fst (_load_artifacts_once fs st) = Raise e →
          fst (_eager_load_background fs st)
          = if is_Exception (exn_cls e) then Ok tt else Raise e)
  ∧ (_vectorizer st = None →
     (fs !! MODEL_PATH st = None
      ∨ ∃ m, fs !! MODEL_PATH st = Some (Pickle (Ok m))
             ∧ fs !! VECTORIZER_PATH st = None) →
     fst (_eager_load_background fs st) = Ok tt
     ∧ loaded (snd (_eager_load_background fs st)) = false).
Proof.
  assert (Hfst : ∀ e, fst (_load_artifacts_once fs st) = Raise e →
            fst (_eager_load_background fs st)
            = if is_Exception (exn_cls e) then Ok tt else Raise e).
  { intros e. unfold _eager_load_background, try_except.
    destruct (_load_artifacts_once fs st) as [[[]|e'] st']; simpl; [done|].
    intros [= ->]. by destruct (is_Exception (exn_cls e)). }
  split_and!.
  - apply eager_state.
  - unfold _eager_load_background, try_except.
    by destruct (_load_artifacts_once fs st) as [[[]|e'] st'].
  - done.
  - intros Hv Hfs. pose proof (loaded_false_vec st Hv) as Hl.
    destruct (load_once_missing fs st Hl Hfs) as (e & st' & Hcall & He).
    rewrite (Hfst e) by (by rewrite Hcall). rewrite He. split; [done|].
    rewrite eager_state, Hcall. simpl.
    rewrite load_once_unloaded in Hcall by done.
    apply load_body_cases in Hcall as (_ & _ & Hcases).
    apply loaded_false_vec.
    destruct Hcases as [(m & v & _ & _ & ? & _)
                       |[(e' & _ & _ & -> & _)|(e' & m & _ & _ & _ & -> & _)]];
      done.
Qed.

(** X7.  When the eager load at start-up fails, the first inference made
    once both files are loadable loads them and classifies with them: the
    outcome is that of the pipeline on the two objects now on disk, and both
    slots hold them afterwards. *)
Theorem eager_failure_then_lazy_load env base fs1 fs2 message m v :
  let st0 : @state features := module_init env base in
  let st1 := snd (_eager_load_background fs1 st0) in
  is_ok (fst (_load_artifacts_once fs1 st0)) = false →
  fs2 !! MODEL_PATH st0 = Some (Pickle (Ok m)) →
  fs2 !! VECTORIZER_PATH st0 = Some (Pickle (Ok v)) →
  loaded st1 = false
  ∧ _predict_text repr_str fs2 message st1
    = (spec_inference repr_str v m message,
       State (MODEL_PATH st0) (VECTORIZER_PATH st0) m v
             (io_log st1 ++ full_log (MODEL_PATH st0) (VECTORIZER_PATH st0))).
Proof.
  intros st0 st1 Hfail Hm Hv.
  assert (Hl0 : loaded st0 = false) by done.
  assert (MODEL_PATH st1 = MODEL_PATH st0
          ∧ VECTORIZER_PATH st1 = VECTORIZER_PATH st0
          ∧ _vectorizer st1 = None) as (Hmp & Hvp & Hvec).
  { unfold st1. rewrite eager_state.
    destruct (_load_artifacts_once fs1 st0) as [r st'] eqn:Hcall. simpl in *.
    rewrite load_once_unloaded in Hcall by done.
    apply load_body_cases in Hcall as (-> & -> & Hcases).
    split; [done|]. split; [done|].
    destruct Hcases as [(m' & v' & _ & _ & -> & _)
                       |[(e' & _ & _ & -> & _)|(e' & m' & _ & _ & _ & -> & _)]];
      done. }
  pose proof (loaded_false_vec st1 Hvec) as Hl1.
  split; [done|].
  rewrite predict_text_eq.
  rewrite (load_once_good fs2 st1 m v) by (by rewrite ?Hmp, ?Hvp).
  simpl. by rewrite Hmp, Hvp.
Qed.

(** ** More on the JSON endpoint *)

(** X8.  Every answer of POST /predict is one of four: 200 with the single
    key [label], whose value is the label [_predict_text] returned for the
    stripped message, or 400, 503, 500 with the single key [error] and the
    message fixed for that status.  So an answer has a [label] exactly when
    its status is 200, and an [error] exactly when it is not. *)
Theorem predict_json_answers fs req st resp st' :
  predict_json repr_str fs req st = (Ok resp, st') →
  ((∃ label v,
      data_get_message (json_or_empty req) = Ok v
      ∧ _predict_text repr_str fs (strip (py_str repr_str v)) st
        = (Ok label, st')
      ∧ resp = jsonify [("label", VStr label)] 200)
   ∨ (resp = jsonify [("error", VStr required_msg)] 400 ∧ st' = st)
   ∨ resp = jsonify [("error", VStr not_found_msg)] 503
   ∨ resp = jsonify [("error", VStr failed_msg)] 500)
  ∧ (json_has_key resp "label" ↔ status resp = 200)
  ∧ (json_has_key resp "error" ↔ status resp ≠ 200).
Proof.
  intros H.
  assert (Hcases :
    (∃ label v,
        data_get_message (json_or_empty req) = Ok v
        ∧ _predict_text repr_str fs (strip (py_str repr_str v)) st
          = (Ok label, st')
        ∧ resp = jsonify [("label", VStr label)] 200)
    ∨ (resp = jsonify [("error", VStr required_msg)] 400 ∧ st' = st)
    ∨ resp = jsonify [("error", VStr not_found_msg)] 503
    ∨ resp = jsonify [("error", VStr failed_msg)] 500).
  { rewrite predict_json_eq in H.
    destruct (data_get_message (json_or_empty req)) as [v|e]; [|done].
    cbv zeta in H. destruct (String.eqb _ "").
    { injection H as <- <-. right. by left. }
    destruct (_predict_text _ _ _ _) as [[label|e] st1] eqn:Hp.
    { injection H as <- <-. left. by exists label, v. }
    destruct (is_FileNotFoundError _).
    { injection H as <- <-. right. right. by left. }
    destruct (is_Exception _); [|done].
    injection H as <- <-. right. right. by right. }
  split; [done|].
  unfold json_has_key.
  destruct Hcases as [(label & v & _ & _ & ->)|[[-> _]|[->| ->]]]; simpl;
    (split; split; intros Hx; try done;
     try (destruct Hx as (d & x & [= <-] & Hx); simpl in Hx; done);
     try (by eexists _, _)).
Qed.

(** X9.  A JSON body that is not an object: when it is falsy ([null],
    [false], [0], the empty string, the empty array) POST /predict answers
    400 as for a missing body; when it is not (a non-empty array or string,
    a non-zero number, [true]) the handler raises [AttributeError] outside
    its [try], with the state unchanged. *)
Theorem predict_json_body_shape fs req st x :
  get_json_silent req = Some x →
  (∀ d, x ≠ VDict d) →
  (truthy x = false →
   predict_json repr_str fs req st
   = (Ok (jsonify [("error", VStr required_msg)] 400), st))
  ∧ (truthy x = true →
     ∃ e, predict_json repr_str fs req st = (Raise e, st)
          ∧ exn_cls e = AttributeError).
Proof.
  intros Hx Hd. rewrite predict_json_eq. unfold json_or_empty. rewrite Hx.
  split; intros Ht; rewrite Ht; [done|].
  destruct x as [|b|n|s|l|d]; simpl; try (by eexists _; split; [reflexivity|]).
  by destruct (Hd d).
Qed.

Lemma head_nonspace_strip s : head_nonspace s → strip s ≠ "".
Proof.
  destruct s as [|c s]; simpl; [done|]. intros Hc.
  unfold strip. simpl. rewrite Hc. simpl.
  destruct (rstrip s); [by rewrite Hc | done].
Qed.

Lemma pretty_N_char_nonspace k : is_space (pretty_N_char k) = false.
Proof.
  unfold pretty_N_char. by repeat case_match.
Qed.

Lemma pretty_N_go_head x s :
  (0 < x)%N ∨ head_nonspace s → head_nonspace (pretty_N_go x s).
Proof.
  revert s. induction (N.lt_wf_0 x) as [x _ IH]; intros s Hs.
  assert (x = 0 ∨ 0 < x)%N as [->|Hx] by lia.
  - rewrite pretty_N_go_0. destruct Hs as [?|?]; [lia | done].
  - rewrite pretty_N_go_step by done. apply IH.
    + by apply N.div_lt.
    + right. simpl. apply pretty_N_char_nonspace.
Qed.

Lemma pretty_Z_head (n : Z) : head_nonspace (pretty n).
Proof.
  destruct n as [|x|x]; [done| |done].
  unfold pretty, pretty_Z, pretty, pretty_positive, pretty, pretty_N.
  destruct (decide (N.pos x = 0%N)); [done|].
  apply pretty_N_go_head. left. lia.
Qed.

(** X10.  [str] of a JSON value that is not a string never strips to the
    empty text, so POST /predict never rejects such a message as empty:
    [null], [false], [0], [[]] and [{}] are classified as the texts "None",
    "False", "0", "[]" and "{}". *)
Theorem nonstring_message_never_empty fs req st d v :
  json_or_empty req = VDict d →
  dict_get d "message" = Some v →
  (∀ s, v ≠ VStr s) →
  strip (py_str repr_str v) ≠ ""
  ∧ ∀ resp st', predict_json repr_str fs req st = (Ok resp, st') →
                status resp ≠ 400
                ∧ snd (_predict_text repr_str fs (strip (py_str repr_str v)) st)
                  = st'.
Proof.
  intros Hd Hv Hns.
  assert (Hne : strip (py_str repr_str v) ≠ "").
  { apply head_nonspace_strip.
    destruct v as [|[]|n|s|l|d']; simpl; try done.
    - apply pretty_Z_head.
    - by destruct (Hns s). }
  split; [done|]. intros resp st'.
  rewrite predict_json_eq, Hd. simpl. rewrite Hv.
  rewrite (string_eqb_nonempty _ Hne).
  destruct (_predict_text _ _ _ _) as [[label|e] st1].
  { by intros [= <- <-]. }
  destruct (is_FileNotFoundError _); [by intros [= <- <-]|].
  destruct (is_Exception _); [by intros [= <- <-]|done].
Qed.

(** ** The form endpoint *)

(** X11.  The form endpoint and the JSON endpoint treat a text alike: for
    the same text sent as form field [message] and as JSON string [message],
    from the same state, both leave the same state, both raise the same
    exception or both answer, with the same status, and on success the
    prediction put in the page context is the label of the JSON answer. *)
Theorem form_json_agree fs st (s : string) (frm frm' : gmap string string)
    (js : option value) :
  let by_form := predict_form repr_str fs (Request js (<["message" := s]> frm)) st in
  let by_json :=
    predict_json repr_str fs
      (Request (Some (VDict [("message", VStr s)])) frm') st in
  snd by_form = snd by_json
  ∧ match fst by_form, fst by_json with
    | Ok rf, Ok rj =>
        status rf = status rj
        ∧ ∀ label,
            resp_body rj = Json (VDict [("label", VStr label)])
            ↔ ∃ ld mp, resp_body rf = Html (DemoPage ld mp (Some label) None)
    | Raise e, Raise e' => e = e'
    | _, _ => False
    end.
Proof.
  intros by_form by_json. unfold by_form, by_json.
  rewrite predict_form_eq, predict_json_eq. simpl.
  rewrite lookup_insert_eq. cbv zeta.
  destruct (String.eqb (strip s) "").
  { simpl. split_and!; try done. intros label. split; [done|].
    by intros (ld & mp & ?). }
  destruct (_predict_text repr_str fs (strip s) st) as [[label|e] st1].
  { simpl. split_and!; try done. intros label'. split.
    - intros [= ->]. by eexists _, _.
    - by intros (ld & mp & [= _ _ ->]). }
  destruct (is_FileNotFoundError _).
  { simpl. split_and!; try done. intros label. split; [done|].
    by intros (ld & mp & ?). }
  destruct (is_Exception _); [|done].
  simpl. split_and!; try done. intros label. split; [done|].
  by intros (ld & mp & ?).
Qed.

(** X12.  Every answer of POST /predict-form renders the page with the
    resolved model path, with a prediction and no error when the status is
    200 and with an error and no prediction otherwise (400, 503 or 500).  A
    blank or missing field is answered 400 before any load is attempted.  The
    [model_loaded] flag of the context is the actual one in every answer but
    503, where it is always false; it is the actual one there too when the
    503 comes from a load that failed with the vectorizer slot empty. *)
Theorem predict_form_answers fs req st resp st' :
  predict_form repr_str fs req st = (Ok resp, st') →
  ∃ page, resp_body resp = Html page
    ∧ page_model_path page = MODEL_PATH st
    ∧ (status resp = 200 ∨ status resp = 400 ∨ status resp = 503
       ∨ status resp = 500)
    ∧ (status resp = 200 ↔ is_Some (page_prediction page))
    ∧ (status resp ≠ 200 ↔ is_Some (page_error page))
    ∧ (status resp = 400 → st' = st)
    ∧ (status resp ≠ 503 → page_model_loaded page = loaded st')
    ∧ (status resp = 503 → page_model_loaded page = false)
    ∧ (status resp = 503 → _vectorizer st = None →
       is_ok (fst (_load_artifacts_once fs st)) = false →
       page_model_loaded page = loaded st').
Proof.
  rewrite predict_form_eq. cbv zeta.
  destruct (String.eqb _ "").
  { intros [= <- <-]. eexists. split; [reflexivity|]. simpl.
    split_and!; try done; try (by right; left);
      try (split; [done | by intros [? ?]]);
      try (split; [by eexists | done]). }
  destruct (_predict_text _ _ _ _) as [[label|e] st1] eqn:Hp.
  { intros [= <- <-]. eexists. split; [reflexivity|]. simpl.
    pose proof (f_equal snd Hp) as Hs. rewrite predict_text_state in Hs.
    simpl in Hs.
    destruct (_load_artifacts_once fs st) as [r0 st0] eqn:Hl. simpl in Hs.
    subst st0. apply load_once_paths in Hl as [-> _].
    assert (loaded st1 = true).
    { rewrite predict_text_eq in Hp.
      destruct (_load_artifacts_once fs st) as [[[]|e] st2]; [|done].
      injection Hp as Hs <-. apply spec_inference_ok in Hs.
      apply loaded_true. tauto. }
    split_and!; try done; try (by left);
      try (split; [by eexists | done]);
      try (split; [done | by intros [? ?]]). }
  pose proof (f_equal snd Hp) as Hs. rewrite predict_text_state in Hs.
  simpl in Hs.
  destruct (_load_artifacts_once fs st) as [r0 st0] eqn:Hl. simpl in Hs.
  subst st0. pose proof (load_once_paths _ _ _ _ Hl) as [Hmp _].
  destruct (is_FileNotFoundError _).
  { intros [= <- <-]. eexists. split; [reflexivity|]. simpl.
    split_and!; try done; try (by right; right; left);
      try (split; [done | by intros [? ?]]);
      try (split; [by eexists | done]).
    intros _ Hv Hfail. simpl in Hfail. symmetry.
    apply loaded_false_vec.
    destruct (loaded st) eqn:Hld.
    { rewrite load_once_loaded in Hl by done. by injection Hl as <- <-. }
    rewrite load_once_unloaded in Hl by done.
    apply load_body_cases in Hl as (_ & _ & Hcases).
    destruct Hcases as [(m & v & _ & _ & -> & _)
                       |[(e' & _ & _ & -> & _)|(e' & m & _ & _ & _ & -> & _)]];
      done. }
  destruct (is_Exception _); [|done].
  intros [= <- <-]. eexists. split; [reflexivity|]. simpl.
  split_and!; try done; try (by right; right; right);
    try (split; [done | by intros [? ?]]);
    try (split; [by eexists | done]).
Qed.

(** X13.  When the object in the vectorizer slot has no [transform] (say
    the two files were swapped) and both slots are non-null, the service
    does not recover by itself: whatever calls are served and whatever the
    files become, GET / reports [model_loaded] true and every POST /predict
    with a non-blank message is answered 500 "Inference failed.". *)
Theorem unusable_vectorizer_stays st obj cs fs req v :
  loaded st = true →
  _vectorizer st = Some obj → transform obj = None →
  data_get_message (json_or_empty req) = Ok v →
  strip (py_str repr_str v) ≠ "" →
  run repr_str cs st = st
  ∧ predict_json repr_str fs req (run repr_str cs st)
    = (Ok (jsonify [("error", VStr failed_msg)] 500), st)
  ∧ fst (health (run repr_str cs st))
    = Ok (jsonify [("status", VStr "ok"); ("model_loaded", VBool true);
                   ("model_path", VStr (MODEL_PATH st));
                   ("vectorizer_path", VStr (VECTORIZER_PATH st))] 200).
Proof.
  intros Hl Hv Htr Hmsg Hne.
  rewrite run_loaded by done. split_and!; [done| |].
  - rewrite predict_json_eq, Hmsg. cbv zeta.
    rewrite (string_eqb_nonempty _ Hne).
    rewrite predict_text_eq, load_once_loaded by done.
    rewrite Hv. destruct obj as [tr pr]. simpl in Htr. subst tr. done.
  - unfold health, bind, gets, ret. simpl. by rewrite Hl.
Qed.

(** ** The script of the demo page *)

Lemma js_upper_char_letter ch n :
  (65 ≤ n ≤ 90)%N →
  js_upper_char ch = [n]
  ↔ Ascii.N_of_ascii ch = n ∨ Ascii.N_of_ascii ch = (n + 32)%N.
Proof.
  intros Hn.
  destruct ch as [[] [] [] [] [] [] [] []];
    match goal with
    | |- ?l = _ ↔ ?a = _ ∨ _ =>
        let v := eval vm_compute in l in
        let m := eval vm_compute in a in
        change (v = [n] ↔ m = n ∨ m = (n + 32)%N)
    end;
    (split;
     [intros H; first [discriminate H | injection H as H; lia]
     | intros [H | H]; first [exfalso; lia | f_equal; lia]]).
Qed.

Lemma js_upper_char_shape ch :
  (∃ n, js_upper_char ch = [n]) ∨ js_upper_char ch = [83%N; 83%N].
Proof.
  destruct ch as [[] [] [] [] [] [] [] []]; vm_compute;
    first [by right | left; by eexists].
Qed.

Lemma ascii_upper_letter ch n :
  (65 ≤ n ≤ 90)%N →
  Ascii.N_of_ascii (ascii_upper ch) = n
  ↔ Ascii.N_of_ascii ch = n ∨ Ascii.N_of_ascii ch = (n + 32)%N.
Proof.
  intros Hn.
  destruct ch as [[] [] [] [] [] [] [] []];
    match goal with
    | |- ?a = _ ↔ ?b = _ ∨ _ =>
        let v := eval vm_compute in a in
        let m := eval vm_compute in b in
        change (v = n ↔ m = n ∨ m = (n + 32)%N)
    end; lia.
Qed.

(** On a word of capital letters other than S, [toUpperCase] recognises
    exactly the texts that the upper-casing of a to z recognises. *)
Lemma js_to_upper_word s w :
  Forall (λ n, (65 ≤ n ≤ 90)%N ∧ n ≠ 83%N) (code_points w) →
  js_to_upper s = code_points w ↔ code_points (string_upper s) = code_points w.
Proof.
  revert s. induction w as [|d w IH]; intros s Hw; simpl in *.
  - destruct s as [|ch s]; simpl; [done|].
    split; [|done]. intros H.
    destruct (js_upper_char_shape ch) as [[n Hch]|Hch]; by rewrite Hch in H.
  - apply Forall_cons in Hw as [[Hd Hs] Hw].
    destruct s as [|ch s]; simpl; [done|].
    split.
    + intros H.
      destruct (js_upper_char_shape ch) as [[n Hch]|Hch]; rewrite Hch in H;
        simpl in H; [|injection H as H _; congruence].
      injection H as -> H. apply IH in H; [|done]. rewrite H. f_equal.
      by apply ascii_upper_letter, js_upper_char_letter.
    + intros [= Hch H]. apply IH in H; [|done]. rewrite H.
      apply ascii_upper_letter in Hch; [|done].
      apply js_upper_char_letter in Hch; [|done]. by rewrite Hch.
Qed.

Lemma code_points_inj s t : code_points s = code_points t → s = t.
Proof.
  revert t. induction s as [|ch s IH]; intros [|d t]; simpl; try done.
  intros [= Hch H]. f_equal; [|by apply IH].
  rewrite <- (Ascii.ascii_N_embedding ch), <- (Ascii.ascii_N_embedding d).
  by rewrite Hch.
Qed.

Lemma script_mark_cases label :
  (script_mark label = ShownFake ↔ string_upper label = "FAKE")
  ∧ (script_mark label = ShownReal ↔ string_upper label = "REAL")
  ∧ (script_mark label = ShownUnknown
     ↔ string_upper label ≠ "FAKE" ∧ string_upper label ≠ "REAL").
Proof.
  assert (Hf : js_to_upper label = code_points "FAKE"
               ↔ string_upper label = "FAKE").
  { rewrite js_to_upper_word.
    - split; [apply code_points_inj | by intros ->].
    - vm_compute. repeat (constructor; [split; [split|]; done|]). constructor. }
  assert (Hr : js_to_upper label = code_points "REAL"
               ↔ string_upper label = "REAL").
  { rewrite js_to_upper_word.
    - split; [apply code_points_inj | by intros ->].
    - vm_compute. repeat (constructor; [split; [split|]; done|]). constructor. }
  unfold script_mark.
  destruct (bool_decide_reflect (js_to_upper label = code_points "FAKE"))
    as [H1|H1].
  { apply Hf in H1. rewrite H1. split_and!; split; try done.
    by intros [? _]. }
  destruct (bool_decide_reflect (js_to_upper label = code_points "REAL"))
    as [H2|H2].
  { apply Hr in H2. rewrite H2. split_and!; split; try done.
    by intros [_ ?]. }
  split_and!; split; try done.
  - intros H. by apply Hf in H.
  - intros H. by apply Hr in H.
  - intros _. split; intros H; [by apply Hf in H | by apply Hr in H].
Qed.

(** X14.  What the demo page writes after a submit, when POST /predict
    answers: never the line of the [catch] branch; for 400, 503 and 500 the
    line 'Error: ' with the message of that status; for 200 the Fake News
    mark exactly when the label is "fake" in any letter case, the Real News
    mark exactly when it is "real" in any letter case, and the Unknown mark
    for every other label, which the JSON answer itself passes through
    unchanged. *)
Theorem demo_script_shows fs st inputText resp st' :
  predict_json repr_str fs (script_request inputText) st = (Ok resp, st') →
  page_shows (resp_body resp) ≠ ShownCaught
  ∧ (status resp = 400 →
     page_shows (resp_body resp) = ShownError (VStr required_msg))
  ∧ (status resp = 503 →
     page_shows (resp_body resp) = ShownError (VStr not_found_msg))
  ∧ (status resp = 500 →
     page_shows (resp_body resp) = ShownError (VStr failed_msg))
  ∧ (status resp = 200 →
     ∃ label,
       _predict_text repr_str fs (strip inputText) st = (Ok label, st')
       ∧ resp_body resp = Json (VDict [("label", VStr label)])
       ∧ page_shows (resp_body resp) = script_mark label
       ∧ (page_shows (resp_body resp) = ShownFake
          ↔ string_upper label = "FAKE")
       ∧ (page_shows (resp_body resp) = ShownReal
          ↔ string_upper label = "REAL")
       ∧ (page_shows (resp_body resp) = ShownUnknown
          ↔ string_upper label ≠ "FAKE" ∧ string_upper label ≠ "REAL")).
Proof.
  rewrite predict_json_eq. simpl. cbv zeta.
  destruct (String.eqb (strip inputText) "").
  { intros [= <- <-]. simpl. split_and!; done. }
  destruct (_predict_text _ _ _ _) as [[label|e] st1].
  { intros [= <- <-]. simpl.
    assert (Hshow : script_display (VDict [("label", VStr label)])
                    = script_mark label) by done.
    pose proof (script_mark_cases label) as (Hf & Hr & Hu).
    split_and!; try done.
    - rewrite Hshow. unfold script_mark. by repeat case_bool_decide.
    - intros _. exists label. rewrite Hshow. by split_and!. }
  destruct (is_FileNotFoundError _).
  { intros [= <- <-]. simpl. split_and!; done. }
  destruct (is_Exception _); [|done].
  intros [= <- <-]. simpl. split_and!; done.
Qed.

End Properties.

(** * The properties on the concrete deployment *)

(** * The properties on the concrete deployment *)

(** ** Load coordinator *)



(** C2, counterexample.  The vectorizer file is missing at the first call and
    present at the second: the second call succeeds, and by then the model
    file has been opened and deserialized twice in this process. *)
Lemma model_file_loaded_twice :
  fst (_load_artifacts_once ex_fs_model_only ex_init)
  = Raise (Exn FileNotFoundError ex_vectorizer_path)
  ∧ fst (_load_artifacts_once ex_fs
           (snd (_load_artifacts_once ex_fs_model_only ex_init)))
    = Ok tt
  ∧ io_log (run ex_repr_str [(ex_fs_model_only, CallLoad); (ex_fs, CallLoad)]
              ex_init)
    = [IoOpen ex_model_path; IoLoad ex_model_path; IoOpen ex_vectorizer_path;
       IoOpen ex_model_path; IoLoad ex_model_path; IoOpen ex_vectorizer_path;
       IoLoad ex_vectorizer_path]
  ∧ loads_of ex_model_path
      (io_log (run ex_repr_str
                 [(ex_fs_model_only, CallLoad); (ex_fs, CallLoad)] ex_init))
    = 2.
Proof. vm_compute. repeat split. Qed.

(** C2, witness: a first call on [ex_fs], later calls with no file left, and
    two threads racing on [ex_fs]. *)
Lemma load_once_idempotent_witness :
  loaded ex_loaded = true
  ∧ _load_artifacts_once ∅ ex_loaded = (Ok tt, ex_loaded)
  ∧ run ex_repr_str [(∅, CallLoad); (∅, PostPredict ex_request); (∅, GetHealth)]
        ex_loaded = ex_loaded
  ∧ io_log (shared (run_schedule ex_schedule (init_config ex_init 2)))
    = full_log ex_model_path ex_vectorizer_path.
Proof.
  destruct (@load_once_idempotent (list nat) ex_repr_str) as (H1 & H2 & _ & H4).
  assert (Hl : loaded ex_loaded = true).
  { apply (H1 ex_fs ex_init ex_loaded).
    - vm_compute. reflexivity.
    - vm_compute. discriminate.
    - vm_compute. discriminate. }
  split; [exact Hl|].
  destruct (H2 ex_loaded Hl) as [Hcall Hrun].
  split; [apply Hcall|]. split; [apply Hrun|].
  destruct (H4 ex_init 2 ex_schedule eq_refl eq_refl) as (_ & _ & Hall).
  - unfold ex_schedule. simpl.
    repeat (apply Forall_cons; split;
            [exists ex_model, ex_vectorizer; vm_compute; split; reflexivity|]).
    apply Forall_nil. exact I.
  - apply Hall; [discriminate|].
    intros j p Hp. vm_compute in Hp.
    destruct j as [|[|j]]; [| |discriminate];
      injection Hp as <-; eexists; reflexivity.
Defined.

(** ** JSON endpoint *)

(** C1, counterexample.  The model file is there but is not a pickle:
    [pickle.load] raises [UnpicklingError], and POST /predict answers 500
    "Inference failed.", not 503. *)
Lemma corrupt_artifact_is_500 :
  ex_fs_corrupt !! ex_model_path
  = Some (Pickle (Raise (Exn UnpicklingError "invalid load key")))
  ∧ fst (_load_artifacts_once ex_fs_corrupt ex_init)
    = Raise (Exn UnpicklingError "invalid load key")
  ∧ fst (predict_json ex_repr_str ex_fs_corrupt ex_request ex_init)
    = Ok (jsonify [("error", VStr "Inference failed.")] 500).
Proof. vm_compute. repeat split. Qed.

(** C1, witness: the request [ex_request] with no artifact file at all, and
    with the model file corrupt. *)
Lemma predict_json_error_mapping_witness :
  data_get_message (json_or_empty ex_request) = Ok (VStr ex_message)
  ∧ (∃ st', predict_json ex_repr_str ∅ ex_request ex_init
            = (Ok (jsonify [("error", VStr not_found_msg)] 503), st'))
  ∧ (∃ st', predict_json ex_repr_str ex_fs_corrupt ex_request ex_init
            = (Ok (jsonify [("error", VStr failed_msg)] 500), st')).
Proof.
  split; [reflexivity|].
  assert (Hne : strip (py_str ex_repr_str (VStr ex_message)) ≠ "")
    by (vm_compute; discriminate).
  split.
  - destruct (predict_json_error_mapping ex_repr_str ∅ ex_request ex_init
                (VStr ex_message) eq_refl) as [_ H].
    destruct (H Hne) as (_ & Hmissing & _).
    apply Hmissing; [reflexivity|]. left. reflexivity.
  - destruct (predict_json_error_mapping ex_repr_str ex_fs_corrupt ex_request
                ex_init (VStr ex_message) eq_refl) as [_ H].
    destruct (H Hne) as (_ & _ & Hcorrupt).
    apply (Hcorrupt (Exn UnpicklingError "invalid load key"));
      [reflexivity | reflexivity | reflexivity |].
    left. vm_compute. reflexivity.
Defined.



(** ** Inference *)

(** C4, witness: the first inference of the process, on [ex_message]. *)
Lemma predict_text_pipeline_witness :
  _load_artifacts_once ex_fs ex_init = (Ok tt, ex_loaded)
  ∧ _predict_text ex_repr_str ex_fs ex_message ex_init = (Ok "FAKE", ex_loaded).
Proof.
  assert (H : _load_artifacts_once ex_fs ex_init = (Ok tt, ex_loaded))
    by (vm_compute; reflexivity).
  split; [exact H|].
  destruct (predict_text_pipeline ex_repr_str ex_fs ex_message ex_init)
    as [_ Hpipe].
  destruct (Hpipe ex_loaded ex_vectorizer ex_model
              (fun docs => Ok (map String.length docs))
              (fun X => Ok (map (fun n => NumpyScalar
                                   (VStr (if Nat.ltb n 45 then "FAKE"
                                          else "REAL"))) X))
              [41] (NumpyScalar (VStr "FAKE")) []
              H eq_refl eq_refl eq_refl eq_refl eq_refl eq_refl)
    as (Hcall & _).
  exact Hcall.
Defined.

(** C6, witness: a second inference on [ex_message] after the artifact
    files have been removed and other requests have been served. *)
Lemma predict_text_deterministic_witness :
  _predict_text ex_repr_str ex_fs ex_message ex_init = (Ok "FAKE", ex_loaded)
  ∧ loaded ex_loaded = true
  ∧ _predict_text ex_repr_str ∅ ex_message
      (run ex_repr_str [(∅, GetHealth); (∅, PostPredict ex_request)] ex_loaded)
    = (Ok "FAKE", ex_loaded).
Proof.
  assert (H : _predict_text ex_repr_str ex_fs ex_message ex_init
              = (Ok "FAKE", ex_loaded)) by (vm_compute; reflexivity).
  split; [exact H|].
  apply (predict_text_deterministic ex_repr_str ex_fs ∅
           [(∅, GetHealth); (∅, PostPredict ex_request)]
           ex_message ex_init (Ok "FAKE") ex_loaded H).
  right. reflexivity.
Defined.

(** C10, witness: the form of the demo page submitted with [ex_message]. *)
Lemma predict_text_success_loaded_witness :
  _predict_text ex_repr_str ex_fs ex_message ex_init = (Ok "FAKE", ex_loaded)
  ∧ loaded ex_loaded = true
  ∧ predict_form ex_repr_str ex_fs
      (Request None {[ "message" := ex_message ]}) ex_init
    = (Ok (render true ex_model_path (Some "FAKE") None 200), ex_loaded)
  ∧ fst (health (run ex_repr_str [(∅, GetDemo); (∅, CallEager)] ex_loaded))
    = Ok (jsonify [("status", VStr "ok"); ("model_loaded", VBool true);
                   ("model_path", VStr ex_model_path);
                   ("vectorizer_path", VStr ex_vectorizer_path)] 200).
Proof.
  assert (H : _predict_text ex_repr_str ex_fs ex_message ex_init
              = (Ok "FAKE", ex_loaded)) by (vm_compute; reflexivity).
  split; [exact H|].
  destruct (predict_text_success_loaded ex_repr_str ex_fs ex_message ex_init
              "FAKE" ex_loaded H) as (Hl & Hform & Hhealth).
  split; [exact Hl|]. split.
  - rewrite (Hform (Request None {[ "message" := ex_message ]})).
    + rewrite Hl. reflexivity.
    + vm_compute. reflexivity.
    + vm_compute. discriminate.
  - apply (Hhealth [(∅, GetDemo); (∅, CallEager)]).
Defined.

(** ** Health endpoint and configuration *)


(** C8, witness: [MODEL_PATH] is set in the environment and
    [VECTORIZER_PATH] is set to the empty string. *)
Lemma paths_resolved_at_start_witness :
  MODEL_PATH (module_init (features := list nat)
                (<["MODEL_PATH" := "/opt/models/clf.pkl"]>
                   (<["VECTORIZER_PATH" := ""]> ∅))
                "/var/app/current")
  = "/opt/models/clf.pkl"
  ∧ VECTORIZER_PATH (module_init (features := list nat)
                       (<["MODEL_PATH" := "/opt/models/clf.pkl"]>
                          (<["VECTORIZER_PATH" := ""]> ∅))
                       "/var/app/current")
    = "/var/app/current/count_vectorizer.pkl".
Proof.
  destruct (@paths_resolved_at_start (list nat) ex_repr_str
              (<["MODEL_PATH" := "/opt/models/clf.pkl"]>
                 (<["VECTORIZER_PATH" := ""]> ∅))
              "/var/app/current")
    as (Hm & _ & _ & Hv & Hjoin & _).
  split.
  - apply Hm; [vm_compute; reflexivity | discriminate].
  - etransitivity; [apply Hv; right; vm_compute; reflexivity|].
    destruct Hjoin as [_ Hj]; [discriminate | reflexivity | exact Hj].
Defined.

(** ** Further properties *)

(** X2, witness: thread 0 holds the lock and opens the model file. *)
Lemma io_only_under_lock_witness :
  thread_step ex_fs 0 (run_schedule ex_schedule_enter (init_config ex_init 2))
  = Some (Config (log_io (IoOpen ex_model_path) ex_init) (Some 0)
            [AtLoadModel (ex_model_path, Ok (Some ex_model)); AtFastModel])
  ∧ lock (run_schedule ex_schedule_enter (init_config ex_init 2)) = Some 0.
Proof.
  assert (H : thread_step ex_fs 0
                (run_schedule ex_schedule_enter (init_config ex_init 2))
              = Some (Config (log_io (IoOpen ex_model_path) ex_init) (Some 0)
                        [AtLoadModel (ex_model_path, Ok (Some ex_model));
                         AtFastModel]))
    by (vm_compute; reflexivity).
  split; [exact H|].
  apply (io_only_under_lock ex_init 2 ex_schedule_enter ex_fs 0 _ H).
  intros Heq. apply (f_equal io_log) in Heq. vm_compute in Heq. discriminate.
Defined.

(** X5, witness: the call that fails on the missing vectorizer file has
    performed three of the four steps. *)
Lemma load_performs_prefix_witness :
  _load_artifacts_once ex_fs_model_only ex_init
  = (Raise (Exn FileNotFoundError ex_vectorizer_path), ex_partial)
  ∧ ∃ k, io_log ex_partial
         = io_log ex_init
           ++ take k (full_log (MODEL_PATH ex_init) (VECTORIZER_PATH ex_init))
         ∧ (k ≤ 4)%nat
         ∧ (k = 0 ↔ loaded ex_init = true)
         ∧ ((3 ≤ k)%nat →
            ex_fs_model_only !! MODEL_PATH ex_init
            = Some (Pickle (Ok (_loaded_model ex_partial))))
         ∧ (Raise (Exn FileNotFoundError ex_vectorizer_path) = Ok tt →
            loaded ex_init = false → k = 4).
Proof.
  assert (H : _load_artifacts_once ex_fs_model_only ex_init
              = (Raise (Exn FileNotFoundError ex_vectorizer_path), ex_partial))
    by (vm_compute; reflexivity).
  split; [exact H|].
  exact (load_performs_prefix ex_fs_model_only ex_init _ _ H).
Defined.

(** X7, witness: no file at start-up, both files at the first request. *)
Lemma eager_failure_then_lazy_load_witness :
  is_ok (fst (_load_artifacts_once ∅ ex_init)) = false
  ∧ fst (_predict_text ex_repr_str ex_fs ex_message
           (snd (_eager_load_background ∅ ex_init)))
    = Ok "FAKE".
Proof.
  split; [reflexivity|].
  destruct (eager_failure_then_lazy_load ex_repr_str ∅ "/var/app/current"
              ∅ ex_fs ex_message (Some ex_model) (Some ex_vectorizer))
    as [_ Hcall].
  - reflexivity.
  - vm_compute. reflexivity.
  - vm_compute. reflexivity.
  - change (module_init ∅ "/var/app/current") with ex_init in Hcall.
    rewrite Hcall. vm_compute. reflexivity.
Defined.

(** X8, witness: the answer to [ex_request]. *)
Lemma predict_json_answers_witness :
  predict_json ex_repr_str ex_fs ex_request ex_init
  = (Ok (jsonify [("label", VStr "FAKE")] 200), ex_loaded)
  ∧ json_has_key (jsonify [("label", VStr "FAKE")] 200) "label".
Proof.
  assert (H : predict_json ex_repr_str ex_fs ex_request ex_init
              = (Ok (jsonify [("label", VStr "FAKE")] 200), ex_loaded))
    by (vm_compute; reflexivity).
  split; [exact H|].
  destruct (predict_json_answers ex_repr_str ex_fs ex_request ex_init _ _ H)
    as (_ & Hlabel & _).
  apply Hlabel. reflexivity.
Defined.

(** X9, witness: the body [[1]]. *)
Lemma predict_json_body_shape_witness :
  truthy (VList [VInt 1]) = true
  ∧ ∃ e, predict_json ex_repr_str ex_fs (Request (Some (VList [VInt 1])) ∅)
           ex_init = (Raise e, ex_init)
         ∧ exn_cls e = AttributeError.
Proof.
  split; [reflexivity|].
  destruct (predict_json_body_shape ex_repr_str ex_fs
              (Request (Some (VList [VInt 1])) ∅) ex_init (VList [VInt 1])
              eq_refl) as [_ H].
  - intros d. discriminate.
  - apply H. reflexivity.
Defined.

(** X10, witness: the body [{"message": null}]. *)
Lemma nonstring_message_never_empty_witness :
  strip (py_str ex_repr_str VNone) = "None"
  ∧ strip (py_str ex_repr_str VNone) ≠ "".
Proof.
  split; [reflexivity|].
  destruct (nonstring_message_never_empty ex_repr_str ex_fs
              (Request (Some (VDict [("message", VNone)])) ∅) ex_init
              [("message", VNone)] VNone eq_refl eq_refl) as [H _].
  - intros s. discriminate.
  - exact H.
Defined.

(** X12, witness: the form submitted with a blank field. *)
Lemma predict_form_answers_witness :
  predict_form ex_repr_str ex_fs (Request None {[ "message" := "  " ]}) ex_init
  = (Ok (render false ex_model_path None (Some required_msg) 400), ex_init)
  ∧ ∃ page,
      resp_body (render false ex_model_path None (Some required_msg) 400)
      = Html page
      ∧ page_model_path page = MODEL_PATH ex_init.
Proof.
  assert (H : predict_form ex_repr_str ex_fs
                (Request None {[ "message" := "  " ]}) ex_init
              = (Ok (render false ex_model_path None (Some required_msg) 400),
                 ex_init)) by (vm_compute; reflexivity).
  split; [exact H|].
  destruct (predict_form_answers ex_repr_str ex_fs _ ex_init _ _ H)
    as (page & Hb & Hp & _).
  exists page. split; [exact Hb | exact Hp].
Defined.

(** X13, witness: the swapped files, and a request after the files have
    been put right. *)
Lemma unusable_vectorizer_stays_witness :
  loaded ex_swapped = true
  ∧ predict_json ex_repr_str ex_fs ex_request
      (run ex_repr_str [(ex_fs, CallLoad); (ex_fs, CallEager)] ex_swapped)
    = (Ok (jsonify [("error", VStr failed_msg)] 500), ex_swapped).
Proof.
  split; [reflexivity|].
  destruct (unusable_vectorizer_stays ex_repr_str ex_swapped ex_model
              [(ex_fs, CallLoad); (ex_fs, CallEager)] ex_fs ex_request
              (VStr ex_message) eq_refl eq_refl eq_refl eq_refl)
    as (_ & H & _).
  - vm_compute. discriminate.
  - exact H.
Defined.

(** X14, witness: the text [ex_message] typed in the page. *)
Lemma demo_script_shows_witness :
  predict_json ex_repr_str ex_fs (script_request ex_message) ex_init
  = (Ok (jsonify [("label", VStr "FAKE")] 200), ex_loaded)
  ∧ page_shows (Json (VDict [("label", VStr "FAKE")])) = ShownFake.
Proof.
  assert (H : predict_json ex_repr_str ex_fs (script_request ex_message) ex_init
              = (Ok (jsonify [("label", VStr "FAKE")] 200), ex_loaded))
    by (vm_compute; reflexivity).
  split; [exact H|].
  destruct (demo_script_shows ex_repr_str ex_fs ex_init ex_message _ _ H)
    as (_ & _ & _ & _ & H200).
  destruct (H200 eq_refl) as (label & _ & Hb & _ & Hf & _).
  injection Hb as <-. apply Hf. reflexivity.
Defined.
